(** * Business Performance Tracker: storage model and domain operations

    A shallow embedding of [app.py]: the two SQLite tables declared by
    [init_db], the statements the domain functions send to them, and the
    revenue aggregation query with the dashboard totals computed from it.

    Modelling conventions.
    - An integer column is a [Z]; a TEXT column is a [string] whose
      characters are read as code points below 256.
    - A REAL amount is an exact rational ([Q]); results about amounts are
      stated up to [Qeq], so they describe the arithmetic the program
      intends, without the rounding of binary floating point.  Module
      [Binary64] repeats the aggregation with [float] amounts, for what
      depends on the rounding.
    - A table is the list of its rows in insertion order.
    - [datetime.utcnow().isoformat()] is an argument [now] of the
      functions that read the clock. *)

From Stdlib Require Import List String Ascii ZArith QArith Lqa Lia Bool Permutation.
From Stdlib Require Import Sorted.
From Stdlib Require Import PrimFloat.
Import ListNotations.

Local Open Scope string_scope.
Local Open Scope Z_scope.

(** ** Rows and tables *)

Record client := mkClient {
  c_id : Z;
  c_name : string;
  c_status : string;
  c_notes : option string;
  c_created_at : string
}.

Record service := mkService {
  s_id : Z;
  s_client_id : Z;
  s_service_name : string;
  s_monthly_cost : Q;
  s_is_active : Z;
  s_created_at : string
}.

(** The database file: both tables and, for each, the AUTOINCREMENT
    counter that SQLite keeps in [sqlite_sequence]. *)
Record db := mkDb {
  clients : list client;
  services : list service;
  clients_seq : Z;
  services_seq : Z
}.

(** What [init_db] leaves on a fresh file.  On a file that already has the
    tables, CREATE TABLE IF NOT EXISTS changes nothing. *)
Definition empty_db : db := mkDb [] [] 0 0.

Definition init_db (file : option db) : db :=
  match file with
  | None => empty_db
  | Some d => d
  end.

(** ** Errors *)

Inductive constraint :=
| StatusCheck        (* CHECK(status IN ('Active','Inactive','Prospect')) *)
| MonthlyCostCheck   (* CHECK(monthly_cost >= 0) *)
| IsActiveCheck      (* CHECK(is_active IN (0,1)) *)
| ForeignKey.        (* FOREIGN KEY (client_id) REFERENCES clients(id) *)

Inductive exn :=
| IntegrityError (k : constraint).

Inductive result (A : Type) :=
| Ok (a : A)
| Err (e : exn).
Arguments Ok {A} a.
Arguments Err {A} e.

(** ** Python's [str.strip] *)

Definition is_space (a : ascii) : bool :=
  let n := N_of_ascii a in
  ((9 <=? n) && (n <=? 13) || (28 <=? n) && (n <=? 32)
   || (n =? 133) || (n =? 160))%N.

Fixpoint lstrip (s : string) : string :=
  match s with
  | EmptyString => EmptyString
  | String a t => if is_space a then lstrip t else s
  end.

Fixpoint rstrip (s : string) : string :=
  match s with
  | EmptyString => EmptyString
  | String a t =>
      match rstrip t with
      | EmptyString => if is_space a then EmptyString else String a EmptyString
      | t' => String a t'
      end
  end.

Definition strip (s : string) : string := rstrip (lstrip s).

(** Truth value of a Python string: false exactly for the empty one. *)
Definition truthy (s : string) : bool :=
  match s with
  | EmptyString => false
  | String _ _ => true
  end.

(** ** Schema constraints *)

Definition status_in_enum (st : string) : bool :=
  (st =? "Active")%string || (st =? "Inactive")%string || (st =? "Prospect")%string.

Definition client_checks (c : client) : option constraint :=
  if status_in_enum (c_status c) then None else Some StatusCheck.

Definition service_checks (s : service) : option constraint :=
  if negb (Qle_bool 0 (s_monthly_cost s)) then Some MonthlyCostCheck
  else if negb ((s_is_active s =? 0) || (s_is_active s =? 1)) then Some IsActiveCheck
  else None.

(** ** Statements

    A statement maps the state it runs on to the state it produces, or
    aborts with an error and produces nothing. *)

Definition statement := db -> result db.

Fixpoint max_rowid (ids : list Z) : Z :=
  match ids with
  | [] => 0
  | i :: rest => Z.max i (max_rowid rest)
  end.

(** INTEGER PRIMARY KEY AUTOINCREMENT: one more than the largest id the
    table holds or has ever handed out. *)
Definition next_rowid (ids : list Z) (seq : Z) : Z :=
  Z.max (max_rowid ids) seq + 1.

(** UPDATE ... SET ... WHERE: every row the WHERE clause selects is
    replaced, after the CHECK constraints pass on its new value. *)
Fixpoint sql_update {R : Type} (where_ : R -> bool) (set : R -> R)
    (checks : R -> option constraint) (rows : list R) : result (list R) :=
  match rows with
  | [] => Ok []
  | r :: rest =>
      if where_ r then
        match checks (set r) with
        | Some k => Err (IntegrityError k)
        | None =>
            match sql_update where_ set checks rest with
            | Ok rest' => Ok (set r :: rest')
            | Err e => Err e
            end
        end
      else
        match sql_update where_ set checks rest with
        | Ok rest' => Ok (r :: rest')
        | Err e => Err e
        end
  end.

(** DELETE ... WHERE *)
Definition sql_delete {R : Type} (where_ : R -> bool) (rows : list R) : list R :=
  filter (fun r => negb (where_ r)) rows.

(** INSERT INTO clients (name, status, notes, created_at) VALUES (?,?,?,?) *)
Definition insert_client (name status notes created_at : string) : statement :=
  fun d =>
    let id := next_rowid (map c_id (clients d)) (clients_seq d) in
    let row := mkClient id name status (Some notes) created_at in
    match client_checks row with
    | Some k => Err (IntegrityError k)
    | None => Ok (mkDb (clients d ++ [row]) (services d) id (services_seq d))
    end.

(** UPDATE clients SET name=?, status=?, notes=? WHERE id=? *)
Definition update_client (name status notes : string) (id : Z) : statement :=
  fun d =>
    match sql_update (fun c => c_id c =? id)
            (fun c => mkClient (c_id c) name status (Some notes) (c_created_at c))
            client_checks (clients d) with
    | Ok rows => Ok (mkDb rows (services d) (clients_seq d) (services_seq d))
    | Err e => Err e
    end.

(** DELETE FROM clients WHERE id=?  With foreign keys on, ON DELETE CASCADE
    removes the services that reference a deleted client row. *)
Definition delete_client_stmt (id : Z) : statement :=
  fun d =>
    let gone := filter (fun c => c_id c =? id) (clients d) in
    Ok (mkDb (sql_delete (fun c => c_id c =? id) (clients d))
             (sql_delete (fun s => existsb (fun c => c_id c =? s_client_id s) gone)
                         (services d))
             (clients_seq d) (services_seq d)).

(** INSERT INTO services (client_id, service_name, monthly_cost, is_active,
    created_at) VALUES (?,?,?,?,?) *)
Definition insert_service (client_id : Z) (service_name : string)
    (monthly_cost : Q) (is_active : Z) (created_at : string) : statement :=
  fun d =>
    let id := next_rowid (map s_id (services d)) (services_seq d) in
    let row := mkService id client_id service_name monthly_cost is_active created_at in
    match service_checks row with
    | Some k => Err (IntegrityError k)
    | None =>
        if existsb (fun c => c_id c =? client_id) (clients d)
        then Ok (mkDb (clients d) (services d ++ [row]) (clients_seq d) id)
        else Err (IntegrityError ForeignKey)
    end.

(** UPDATE services SET service_name=?, monthly_cost=?, is_active=? WHERE id=? *)
Definition update_service (service_name : string) (monthly_cost : Q)
    (is_active : Z) (id : Z) : statement :=
  fun d =>
    match sql_update (fun s => s_id s =? id)
            (fun s => mkService (s_id s) (s_client_id s) service_name monthly_cost
                                is_active (s_created_at s))
            service_checks (services d) with
    | Ok rows => Ok (mkDb (clients d) rows (clients_seq d) (services_seq d))
    | Err e => Err e
    end.

(** DELETE FROM services WHERE id=? *)
Definition delete_service_stmt (id : Z) : statement :=
  fun d =>
    Ok (mkDb (clients d) (sql_delete (fun s => s_id s =? id) (services d))
             (clients_seq d) (services_seq d)).

(** ** Connections

    A connection sees the file as it was when opened plus its own pending
    writes.  [sqlite3] opens a transaction before the first INSERT, UPDATE
    or DELETE; the pending writes reach the file at [commit], and are
    dropped with the connection when no commit happens. *)

Record conn := mkConn {
  persisted : db;
  pending : db
}.

Definition get_conn (d : db) : conn := mkConn d d.

(** [cur.execute]: a statement that aborts leaves the pending state as it
    was and raises. *)
Definition execute (s : statement) (c : conn) : conn * option exn :=
  match s (pending c) with
  | Ok d' => (mkConn (persisted c) d', None)
  | Err e => (c, Some e)
  end.

Definition commit (c : conn) : conn := mkConn (pending c) (pending c).

(** The result of a domain function: the file after the call, and the
    exception the call raised, if any. *)
Definition outcome := (db * option exn)%type.

Definition exec_sql (s : statement) (d : db) : outcome :=
  let conn := get_conn d in
  match execute s conn with
  | (conn', None) => (persisted (commit conn'), None)
  | (conn', Some e) => (persisted conn', Some e)
  end.

(** ** Domain logic *)

Definition upsert_client (client_id : option Z) (name status notes : string)
    (now : string) (d : db) : outcome :=
  match client_id with
  | None => exec_sql (insert_client (strip name) status (strip notes) now) d
  | Some id => exec_sql (update_client (strip name) status (strip notes) id) d
  end.

Definition delete_client (client_id : Z) (d : db) : outcome :=
  exec_sql (delete_client_stmt client_id) d.

Definition add_service (client_id : Z) (service_name : string)
    (monthly_cost : Q) (is_active : bool) (now : string) (d : db) : outcome :=
  exec_sql (insert_service client_id (strip service_name) monthly_cost
              (if is_active then 1 else 0) now) d.

(** A row of the edited data frame: columns id, service_name,
    monthly_cost, is_active. *)
Record edited_row := mkEdited {
  e_id : Z;
  e_service_name : string;
  e_monthly_cost : Q;
  e_is_active : bool
}.

(** The statement [update_services_bulk] builds from one row. *)
Definition row_statement (r : edited_row) : statement :=
  update_service (strip (e_service_name r)) (e_monthly_cost r)
    (if e_is_active r then 1 else 0) (e_id r).

(** The loop of [update_services_bulk]: one [cur.execute] per row on the
    same connection, left as soon as one of them raises. *)
Fixpoint for_each_row (rows : list edited_row) (c : conn) : conn * option exn :=
  match rows with
  | [] => (c, None)
  | r :: rest =>
      match execute (row_statement r) c with
      | (c', None) => for_each_row rest c'
      | (c', Some e) => (c', Some e)
      end
  end.

Definition update_services_bulk (edited : list edited_row) (d : db) : outcome :=
  let conn := get_conn d in
  match for_each_row edited conn with
  | (conn', None) => (persisted (commit conn'), None)
  | (conn', Some e) => (persisted conn', Some e)
  end.

Definition delete_service (service_id : Z) (d : db) : outcome :=
  exec_sql (delete_service_stmt service_id) d.

(** ** Revenue aggregation *)

(** FROM clients c LEFT JOIN services s ON s.client_id = c.id: a client is
    paired with each of its services, or once with NULL when it has none. *)
Definition joined_with (c : client) (ss : list service)
    : list (client * option service) :=
  match filter (fun s => s_client_id s =? c_id c) ss with
  | [] => [(c, None)]
  | matched => map (fun s => (c, Some s)) matched
  end.

Definition left_join (cs : list client) (ss : list service)
    : list (client * option service) :=
  flat_map (fun c => joined_with c ss) cs.

(** CASE WHEN s.is_active = 1 THEN s.monthly_cost ELSE 0 END; on the NULL
    service of an unmatched client the comparison is not true. *)
Definition case_active_cost (j : client * option service) : Q :=
  match snd j with
  | Some s => if s_is_active s =? 1 then s_monthly_cost s else 0%Q
  | None => 0%Q
  end.

Fixpoint Qsum (xs : list Q) : Q :=
  match xs with
  | [] => 0%Q
  | x :: rest => (x + Qsum rest)%Q
  end.

(** SUM is NULL over no rows. *)
Definition sql_sum (xs : list Q) : option Q :=
  match xs with
  | [] => None
  | _ => Some (Qsum xs)
  end.

Definition coalesce (v : option Q) (dflt : Q) : Q :=
  match v with
  | Some x => x
  | None => dflt
  end.

(** GROUP BY c.id, c.name, c.status *)
Definition group_key := (Z * string * string)%type.

Definition key_of (j : client * option service) : group_key :=
  (c_id (fst j), c_name (fst j), c_status (fst j)).

Definition key_eqb (k1 k2 : group_key) : bool :=
  match k1, k2 with
  | (i1, n1, st1), (i2, n2, st2) =>
      (i1 =? i2) && (n1 =? n2)%string && (st1 =? st2)%string
  end.

(** The keys of a list, each once, in order of first appearance. *)
Fixpoint distinct_keys (ks : list group_key) : list group_key :=
  match ks with
  | [] => []
  | k :: rest => k :: filter (fun k' => negb (key_eqb k k')) (distinct_keys rest)
  end.

(** One group per distinct key, holding the joined rows with that key. *)
Definition group_by (js : list (client * option service))
    : list (group_key * list (client * option service)) :=
  map (fun k => (k, filter (fun j => key_eqb k (key_of j)) js))
      (distinct_keys (map key_of js)).

Record breakdown_row := mkBreakdown {
  b_client_id : Z;
  b_name : string;
  b_status : string;
  b_monthly_revenue : Q
}.

Definition select_row (g : group_key * list (client * option service))
    : breakdown_row :=
  match fst g with
  | (id, name, status) =>
      mkBreakdown id name status
        (coalesce (sql_sum (map case_active_cost (snd g))) 0%Q)
  end.

(** ORDER BY c.status, c.name, both compared as text. *)
Definition order_le (r1 r2 : breakdown_row) : bool :=
  match String.compare (b_status r1) (b_status r2) with
  | Lt => true
  | Gt => false
  | Eq => String.leb (b_name r1) (b_name r2)
  end.

Fixpoint insert_ordered (r : breakdown_row) (rows : list breakdown_row)
    : list breakdown_row :=
  match rows with
  | [] => [r]
  | r' :: rest =>
      if order_le r r' then r :: rows else r' :: insert_ordered r rest
  end.

Fixpoint order_by (rows : list breakdown_row) : list breakdown_row :=
  match rows with
  | [] => []
  | r :: rest => insert_ordered r (order_by rest)
  end.

Definition client_monthly_revenue_breakdown (d : db) : list breakdown_row :=
  order_by (map select_row (group_by (left_join (clients d) (services d)))).

(** [df.loc[df["status"] == st, "monthly_revenue"].sum()] *)
Definition status_sum (df : list breakdown_row) (st : string) : Q :=
  Qsum (map b_monthly_revenue
          (filter (fun r => (b_status r =? st)%string) df)).

(** Returns (active_mrr, prospect_mrr, total_potential, inactive_mrr). *)
Definition totals_for_dashboard (d : db) : Q * Q * Q * Q :=
  let df := client_monthly_revenue_breakdown d in
  let active_mrr := status_sum df "Active" in
  let prospect_mrr := status_sum df "Prospect" in
  let inactive_mrr := status_sum df "Inactive" in
  let total_potential := (active_mrr + prospect_mrr)%Q in
  (active_mrr, prospect_mrr, total_potential, inactive_mrr).

(** ** The client form

    The handler of the "Save client" button, the only caller of
    [upsert_client].  The typographic apostrophe of its error message is
    written here as an ASCII one. *)

Inductive ui_message :=
| StError (text : string)
| StSuccess (text : string)
| StException (e : exn).

Definition client_form_submit (selected_id : option Z) (name status notes : string)
    (now : string) (d : db) : db * ui_message :=
  if negb (truthy (strip name)) then
    (d, StError "Client name can't be blank.")
  else
    match upsert_client selected_id name status notes now d with
    | (d', None) => (d', StSuccess "Saved.")
    | (d', Some e) => (d', StException e)
    end.

(** ** States of the database *)

(** What the schema guarantees of a stored state. *)
Record db_ok (d : db) : Prop := mkDbOk {
  ok_client_ids : NoDup (map c_id (clients d));
  ok_service_ids : NoDup (map s_id (services d));
  ok_status : Forall (fun c => status_in_enum (c_status c) = true) (clients d);
  ok_cost : Forall (fun s => (0 <= s_monthly_cost s)%Q) (services d);
  ok_is_active : Forall (fun s => s_is_active s = 0 \/ s_is_active s = 1) (services d);
  ok_foreign_key :
    Forall (fun s => In (s_client_id s) (map c_id (clients d))) (services d)
}.

(** The states the application can bring the file to, starting from the
    schema [init_db] creates. *)
Inductive reachable : db -> Prop :=
| reach_init : reachable (init_db None)
| reach_upsert_client d client_id name status notes now :
    reachable d ->
    reachable (fst (upsert_client client_id name status notes now d))
| reach_delete_client d client_id :
    reachable d -> reachable (fst (delete_client client_id d))
| reach_add_service d client_id service_name monthly_cost is_active now :
    reachable d ->
    reachable (fst (add_service client_id service_name monthly_cost is_active now d))
| reach_update_services_bulk d edited :
    reachable d -> reachable (fst (update_services_bulk edited d))
| reach_delete_service d service_id :
    reachable d -> reachable (fst (delete_service service_id d)).

(** ** Example states *)

Definition acme : client := mkClient 1 "Acme" "Active" (Some "") "2024-01-01T00:00:00".
Definition hosting : service := mkService 1 1 "Hosting" 100 1 "2024-01-02T00:00:00".
Definition old_plan : service := mkService 2 1 "Old Plan" 50 0 "2024-01-03T00:00:00".
Definition acme_db : db := mkDb [acme] [hosting; old_plan] 1 2.

Definition web : service := mkService 1 1 "Web" 120 1 "2024-01-02T00:00:00".
Definition acme_db_web : db := mkDb [acme] [web; old_plan] 1 2.
Definition edit_web : edited_row := mkEdited 1 " Web " 120 true.
Definition edit_negative : edited_row := mkEdited 2 "Old Plan" (-5) false.

Definition blank_client : client :=
  mkClient 1 "" "Prospect" (Some "") "2024-05-01T00:00:00".
Definition acme_blanked : client :=
  mkClient 1 "" "Active" (Some "") "2024-01-01T00:00:00".

(** The rows of a batch run one after the other, each on the state the
    previous one produced. *)
Fixpoint run_rows (rows : list edited_row) (d : db) : result db :=
  match rows with
  | [] => Ok d
  | r :: rest =>
      match row_statement r d with
      | Ok d' => run_rows rest d'
      | Err e => Err e
      end
  end.

(** ** Auxiliary definitions for the proofs *)

(** What UPDATE makes of a row: its new value when the WHERE clause
    selects it, the row itself otherwise. *)
Definition replaced {R : Type} (where_ : R -> bool) (set : R -> R) (r : R) : R :=
  if where_ r then set r else r.

(** The GROUP BY key of the joined rows of a client. *)
Definition client_key (c : client) : group_key := (c_id c, c_name c, c_status c).

(** The row the query reports for a client. *)
Definition client_row (ss : list service) (c : client) : breakdown_row :=
  mkBreakdown (c_id c) (c_name c) (c_status c)
    (coalesce (sql_sum (map case_active_cost (joined_with c ss))) 0%Q).

Definition beta : client := mkClient 2 "Beta" "Prospect" None "2024-02-01T00:00:00".
Definition audit : service := mkService 3 2 "Audit" (75 # 2) 1 "2024-02-02T00:00:00".
Definition two_clients_db : db := mkDb [acme; beta] [hosting; old_plan; audit] 2 3.

Definition gamma : client := mkClient 3 "Gamma" "Inactive" (Some "left") "2024-03-01T00:00:00".
Definition retainer : service := mkService 4 3 "Retainer" 20 1 "2024-03-02T00:00:00".
Definition three_clients_db : db :=
  mkDb [acme; beta; gamma] [hosting; old_plan; audit; retainer] 3 4.

(** Settles a [Forall] over an explicit list of rows, row by row. *)
Ltac rows_by tac := repeat (apply Forall_cons; [tac|]); apply Forall_nil.

(** ** Further handlers and queries of the Clients page *)

(** Whether every character of a string is whitespace for [str.strip]. *)
Fixpoint all_space (s : string) : bool :=
  match s with
  | EmptyString => true
  | String a t => is_space a && all_space t
  end.

(** The handler of the "Add service" button for the client chosen in
    the "Manage services for" box. *)
Definition add_service_form_submit (manage_id : Z) (sname : string) (scost : Q)
    (sactive : bool) (now : string) (d : db) : db * ui_message :=
  if negb (truthy (strip sname)) then
    (d, StError "Service name can't be blank.")
  else
    match add_service manage_id sname scost sactive now d with
    | (d', None) => (d', StSuccess "Service added.")
    | (d', Some e) => (d', StException e)
    end.

(** A row of [services_df]: SELECT id, service_name, monthly_cost,
    CASE WHEN is_active=1 THEN 1 ELSE 0 END AS is_active. *)
Record services_df_row := mkServicesDf {
  f_id : Z;
  f_service_name : string;
  f_monthly_cost : Q;
  f_is_active : Z
}.

Definition select_service (s : service) : services_df_row :=
  mkServicesDf (s_id s) (s_service_name s) (s_monthly_cost s)
    (if s_is_active s =? 1 then 1 else 0).

(** ORDER BY is_active DESC, service_name *)
Definition services_le (r1 r2 : services_df_row) : bool :=
  if f_is_active r2 <? f_is_active r1 then true
  else if f_is_active r1 <? f_is_active r2 then false
  else String.leb (f_service_name r1) (f_service_name r2).

Fixpoint insert_service_row (r : services_df_row) (rows : list services_df_row)
    : list services_df_row :=
  match rows with
  | [] => [r]
  | r' :: rest =>
      if services_le r r' then r :: rows else r' :: insert_service_row r rest
  end.

Fixpoint order_services (rows : list services_df_row) : list services_df_row :=
  match rows with
  | [] => []
  | r :: rest => insert_service_row r (order_services rest)
  end.

(** The query behind the services grid of one client. *)
Definition services_df (manage_id : Z) (d : db) : list services_df_row :=
  order_services
    (map select_service (filter (fun s => s_client_id s =? manage_id) (services d))).

(** [editable["is_active"].astype(bool)]: the grid as the data editor
    shows it, before any edit. *)
Definition editable_row (r : services_df_row) : edited_row :=
  mkEdited (f_id r) (f_service_name r) (f_monthly_cost r)
    (negb (f_is_active r =? 0)).

Definition editable (manage_id : Z) (d : db) : list edited_row :=
  map editable_row (services_df manage_id d).

(** A string that [strip] leaves as it is. *)
Definition trimmed (s : string) : Prop := lstrip s = s /\ rstrip s = s.

Definition trimmed_notes (n : option string) : Prop :=
  match n with
  | Some s => trimmed s
  | None => True
  end.

(** Every stored name and note is trimmed. *)
Definition names_trimmed (d : db) : Prop :=
  Forall (fun c => trimmed (c_name c) /\ trimmed_notes (c_notes c)) (clients d) /\
  Forall (fun s => trimmed (s_service_name s)) (services d).

Definition padded_db : db :=
  fst (add_service 1 "  SEO  " 500 true "2024-04-02T00:00:00"
         (fst (upsert_client None "  Initech " "Prospect" " call back  "
                 "2024-04-01T00:00:00" empty_db))).







(** [r1] comes no later than [r2] under ORDER BY status, name. *)
Definition ordered_before (r1 r2 : breakdown_row) : Prop := order_le r1 r2 = true.

(** The Service an edited row makes of a stored one. *)
Definition edited_service (r : edited_row) (s : service) : service :=
  mkService (s_id s) (s_client_id s) (strip (e_service_name r)) (e_monthly_cost r)
    (if e_is_active r then 1 else 0) (s_created_at s).

(** The values the client form shows for a selected client: its name,
    its status, and its notes or the empty string when there are none. *)
Definition name_default (selected_row : client) : string := c_name selected_row.
Definition status_default (selected_row : client) : string := c_status selected_row.
Definition notes_default (selected_row : client) : string :=
  match c_notes selected_row with
  | Some n => n
  | None => ""
  end.

(** Every stored Client has notes, possibly empty. *)
Definition notes_present (d : db) : Prop :=
  Forall (fun c => c_notes c <> None) (clients d).

(** ** The revenue figures in binary64

    [monthly_cost] is a REAL column and pandas reads [monthly_revenue]
    as float64, so SQLite and pandas add the amounts with rounding.  This
    module repeats the aggregation query and the dashboard totals with
    [float] amounts and rounded additions.  SQLite has added REAL values
    in two ways: plainly, one after the other, in older versions, and
    with Kahan-Babuska-Neumaier compensation in current ones; the query
    takes the summation as an argument, so that both can be run. *)
Module Binary64.

Record service := mkService {
  s_id : Z;
  s_client_id : Z;
  s_service_name : string;
  s_monthly_cost : float;
  s_is_active : Z;
  s_created_at : string
}.

Record tables := mkTables {
  clients : list client;
  services : list service
}.

Definition joined_with (c : client) (ss : list service)
    : list (client * option service) :=
  match filter (fun s => s_client_id s =? c_id c) ss with
  | [] => [(c, None)]
  | matched => map (fun s => (c, Some s)) matched
  end.

Definition left_join (cs : list client) (ss : list service)
    : list (client * option service) :=
  flat_map (fun c => joined_with c ss) cs.

(** The integer 0 of the ELSE branch is added as 0.0. *)
Definition case_active_cost (j : client * option service) : float :=
  match snd j with
  | Some s => if s_is_active s =? 1 then s_monthly_cost s else 0%float
  | None => 0%float
  end.

Definition summation := list float -> float.

(** SUM of older SQLite versions: [rSum += v] for each value. *)
Definition sqlite_sum_plain : summation :=
  fun xs => fold_left PrimFloat.add xs 0%float.

(** SUM of current SQLite versions: the running sum and a running
    compensation, added at the end unless the compensation is not
    finite. *)
Definition kbn_step (acc : float * float) (r : float) : float * float :=
  let (s, err) := acc in
  let t := (s + r)%float in
  if (abs r <? abs s)%float
  then (t, (err + ((s - t) + r))%float)
  else (t, (err + ((r - t) + s))%float).

Definition sqlite_sum_kbn : summation :=
  fun xs =>
    let (s, err) := fold_left kbn_step xs (0%float, 0%float) in
    if is_nan err || is_infinity err then s else (s + err)%float.

Definition sql_sum (total : summation) (xs : list float) : option float :=
  match xs with
  | [] => None
  | _ => Some (total xs)
  end.

Definition coalesce (v : option float) (dflt : float) : float :=
  match v with
  | Some x => x
  | None => dflt
  end.

Definition key_of (j : client * option service) : group_key :=
  (c_id (fst j), c_name (fst j), c_status (fst j)).

Definition group_by (js : list (client * option service))
    : list (group_key * list (client * option service)) :=
  map (fun k => (k, filter (fun j => key_eqb k (key_of j)) js))
      (distinct_keys (map key_of js)).

Record breakdown_row := mkBreakdown {
  b_client_id : Z;
  b_name : string;
  b_status : string;
  b_monthly_revenue : float
}.

Definition select_row (total : summation)
    (g : group_key * list (client * option service)) : breakdown_row :=
  match fst g with
  | (id, name, status) =>
      mkBreakdown id name status
        (coalesce (sql_sum total (map case_active_cost (snd g))) 0%float)
  end.

Definition order_le (r1 r2 : breakdown_row) : bool :=
  match String.compare (b_status r1) (b_status r2) with
  | Lt => true
  | Gt => false
  | Eq => String.leb (b_name r1) (b_name r2)
  end.

Fixpoint insert_ordered (r : breakdown_row) (rows : list breakdown_row)
    : list breakdown_row :=
  match rows with
  | [] => [r]
  | r' :: rest =>
      if order_le r r' then r :: rows else r' :: insert_ordered r rest
  end.

Fixpoint order_by (rows : list breakdown_row) : list breakdown_row :=
  match rows with
  | [] => []
  | r :: rest => insert_ordered r (order_by rest)
  end.

Definition client_monthly_revenue_breakdown (total : summation) (t : tables)
    : list breakdown_row :=
  order_by (map (select_row total) (group_by (left_join (clients t) (services t)))).

(** [Series.sum()] of a short float64 column: the values are added one
    after the other, starting from 0.0. *)
Definition series_sum (xs : list float) : float :=
  fold_left PrimFloat.add xs 0%float.

Definition status_sum (df : list breakdown_row) (st : string) : float :=
  series_sum (map b_monthly_revenue
                (filter (fun r => (b_status r =? st)%string) df)).

Definition totals_for_dashboard (total : summation) (t : tables)
    : float * float * float * float :=
  let df := client_monthly_revenue_breakdown total t in
  let active_mrr := status_sum df "Active" in
  let prospect_mrr := status_sum df "Prospect" in
  let inactive_mrr := status_sum df "Inactive" in
  let total_potential := (active_mrr + prospect_mrr)%float in
  (active_mrr, prospect_mrr, total_potential, inactive_mrr).

(** Whether active_mrr + prospect_mrr + inactive_mrr, added as Python
    adds floats, equals (Python's [==]) the sum of the breakdown's
    [monthly_revenue] column. *)
Definition totals_add_up (total : summation) (t : tables) : bool :=
  match totals_for_dashboard total t with
  | (active_mrr, prospect_mrr, _, inactive_mrr) =>
      (active_mrr + prospect_mrr + inactive_mrr =?
       series_sum (map b_monthly_revenue (client_monthly_revenue_breakdown total t)))%float
  end.

(** The costs 1.1, 2.2 and 3.3 as Python reads them. *)
Definition cost_1_1 : float := 0x1.199999999999ap+0%float.
Definition cost_2_2 : float := 0x1.199999999999ap+1%float.
Definition cost_3_3 : float := 0x1.a666666666666p+1%float.

(** Three clients, one of each status, each with one active service. *)
Definition three_statuses : tables :=
  mkTables
    [mkClient 1 "Ada" "Active" (Some "") "2024-01-01T00:00:00";
     mkClient 2 "Pia" "Prospect" (Some "") "2024-01-02T00:00:00";
     mkClient 3 "Ian" "Inactive" (Some "") "2024-01-03T00:00:00"]
    [mkService 1 1 "Hosting" cost_1_1 1 "2024-01-04T00:00:00";
     mkService 2 2 "Audit" cost_2_2 1 "2024-01-05T00:00:00";
     mkService 3 3 "Retainer" cost_3_3 1 "2024-01-06T00:00:00"].

End Binary64.

(** * Properties *)

(** ** The storage layer *)

Lemma db_eta (d : db) :
  mkDb (clients d) (services d) (clients_seq d) (services_seq d) = d.
Proof. destruct d; reflexivity. Qed.

Lemma exec_sql_eq (s : statement) (d : db) :
  exec_sql s d = match s d with
                 | Ok d' => (d', None)
                 | Err e => (d, Some e)
                 end.
Proof.
  unfold exec_sql, execute, get_conn; simpl.
  destruct (s d); reflexivity.
Qed.

Lemma filter_keeps_all {A : Type} (f : A -> bool) (l : list A) :
  (forall x, In x l -> f x = true) -> filter f l = l.
Proof.
  induction l as [|a l IH]; simpl; intros H; [reflexivity|].
  rewrite (H a (or_introl eq_refl)), IH; [reflexivity|].
  intros x Hx; apply H; right; exact Hx.
Qed.

Lemma filter_drops_all {A : Type} (f : A -> bool) (l : list A) :
  (forall x, In x l -> f x = false) -> filter f l = [].
Proof.
  induction l as [|a l IH]; simpl; intros H; [reflexivity|].
  rewrite (H a (or_introl eq_refl)). apply IH.
  intros x Hx; apply H; right; exact Hx.
Qed.

Section SqlUpdate.
Context {R : Type}.
Variables (where_ : R -> bool) (set : R -> R) (checks : R -> option constraint).

Lemma sql_update_ok (rows rows' : list R) :
  sql_update where_ set checks rows = Ok rows' ->
  rows' = map (replaced where_ set) rows /\
  Forall (fun r => where_ r = true -> checks (set r) = None) rows.
Proof.
  revert rows'; induction rows as [|r rest IH]; simpl; intros rows' H.
  - inversion H; split; [reflexivity | constructor].
  - unfold replaced at 1. destruct (where_ r) eqn:Hw.
    + destruct (checks (set r)) eqn:Hc; [discriminate|].
      destruct (sql_update where_ set checks rest) as [rest'|e]; [|discriminate].
      inversion H; subst. destruct (IH rest' eq_refl) as [-> HF].
      split; [reflexivity | constructor; auto].
    + destruct (sql_update where_ set checks rest) as [rest'|e]; [|discriminate].
      inversion H; subst. destruct (IH rest' eq_refl) as [-> HF].
      split; [reflexivity | constructor; [congruence | exact HF]].
Qed.

Lemma sql_update_err (rows : list R) (e : exn) :
  sql_update where_ set checks rows = Err e ->
  exists r k, In r rows /\ where_ r = true /\ checks (set r) = Some k /\
              e = IntegrityError k.
Proof.
  induction rows as [|r rest IH]; simpl; intros H; [discriminate|].
  destruct (where_ r) eqn:Hw.
  - destruct (checks (set r)) as [k|] eqn:Hc.
    + inversion H; subst. exists r, k; auto.
    + destruct (sql_update where_ set checks rest) as [rest'|e']; [discriminate|].
      inversion H; subst. destruct (IH eq_refl) as (r' & k & ? & ? & ? & ?).
      exists r', k; auto.
  - destruct (sql_update where_ set checks rest) as [rest'|e']; [discriminate|].
    inversion H; subst. destruct (IH eq_refl) as (r' & k & ? & ? & ? & ?).
    exists r', k; auto.
Qed.

Lemma sql_update_rejects (rows : list R) (r : R) (k : constraint) :
  In r rows -> where_ r = true -> checks (set r) = Some k ->
  exists e, sql_update where_ set checks rows = Err e.
Proof.
  induction rows as [|r' rest IH]; simpl; intros Hin Hw Hc; [contradiction|].
  destruct Hin as [->|Hin].
  - rewrite Hw, Hc. eauto.
  - destruct (IH Hin Hw Hc) as [e He]. rewrite He.
    destruct (where_ r'); [destruct (checks (set r'))|]; eauto.
Qed.

Lemma sql_update_accepts (rows : list R) :
  Forall (fun r => where_ r = true -> checks (set r) = None) rows ->
  sql_update where_ set checks rows = Ok (map (replaced where_ set) rows).
Proof.
  induction 1 as [|r rest Hr _ IH]; simpl; [reflexivity|].
  unfold replaced at 1. rewrite IH.
  destruct (where_ r); [rewrite Hr by reflexivity|]; reflexivity.
Qed.

Lemma sql_update_no_match (rows : list R) :
  (forall r, In r rows -> where_ r = false) ->
  sql_update where_ set checks rows = Ok rows.
Proof.
  induction rows as [|r rest IH]; simpl; intros H; [reflexivity|].
  rewrite (H r (or_introl eq_refl)), IH; [reflexivity|].
  intros x Hx; apply H; right; exact Hx.
Qed.
End SqlUpdate.

Lemma id_not_selected {R : Type} (key : R -> Z) (id : Z) (rows : list R) :
  ~ In id (map key rows) -> forall r, In r rows -> (key r =? id) = false.
Proof.
  intros Hn r Hr. apply Z.eqb_neq. intros <-.
  apply Hn, in_map, Hr.
Qed.

(** ** Validation of the client name *)

Lemma truthy_empty_iff (s : string) : truthy s = false <-> s = "".
Proof. destruct s; simpl; split; intros H; congruence. Qed.

(** C2, as stated, fails: [upsert_client] does not look at the name.
    With a blank name and no id it inserts a Client whose name is empty;
    with the id of an existing Client it overwrites that Client's name
    with the empty string.  Neither call raises. *)
Lemma upsert_client_writes_blank_name :
  strip "" = "" /\ strip "   " = "" /\
  upsert_client None "" "Prospect" "" "2024-05-01T00:00:00" empty_db
    = (mkDb [blank_client] [] 1 0, None) /\
  mkDb [blank_client] [] 1 0 <> empty_db /\
  upsert_client (Some 1) "   " "Active" "" "2024-05-01T00:00:00" acme_db
    = (mkDb [acme_blanked] [hosting; old_plan] 1 2, None) /\
  mkDb [acme_blanked] [hosting; old_plan] 1 2 <> acme_db.
Proof.
  repeat split; try reflexivity; discriminate.
Qed.

(** C2, amended: the blank-name check belongs to the handler of the
    client form, which calls [upsert_client].  When the trimmed name is
    empty the handler reports the error, never calls [upsert_client], and
    the database is left exactly as it was, with or without a selected
    id. *)
Theorem client_form_rejects_blank_name
    (selected_id : option Z) (name status notes now : string) (d : db) :
  strip name = "" ->
  client_form_submit selected_id name status notes now d
    = (d, StError "Client name can't be blank.").
Proof.
  intros H. unfold client_form_submit. rewrite H. reflexivity.
Qed.

Lemma client_form_rejects_blank_name_witness :
  strip "  " = "" /\
  client_form_submit (Some 1) "  " "Active" "note" "2024-05-01T00:00:00" acme_db
    = (acme_db, StError "Client name can't be blank.").
Proof.
  split; [reflexivity|].
  apply (client_form_rejects_blank_name (Some 1) "  " "Active" "note"
           "2024-05-01T00:00:00" acme_db).
  reflexivity.
Defined.

(** ** Bulk update of services *)

Lemma for_each_row_run (rows : list edited_row) (c : conn) :
  match run_rows rows (pending c) with
  | Ok d' => for_each_row rows c = (mkConn (persisted c) d', None)
  | Err e => exists c', for_each_row rows c = (c', Some e) /\
                        persisted c' = persisted c
  end.
Proof.
  revert c; induction rows as [|r rest IH]; intros c; simpl.
  - destruct c; reflexivity.
  - unfold execute. destruct (row_statement r (pending c)) as [d1|e].
    + specialize (IH (mkConn (persisted c) d1)); simpl in IH. exact IH.
    + exists c; split; reflexivity.
Qed.

Lemma update_services_bulk_eq (edited : list edited_row) (d : db) :
  update_services_bulk edited d =
  match run_rows edited d with
  | Ok d' => (d', None)
  | Err e => (d, Some e)
  end.
Proof.
  unfold update_services_bulk.
  pose proof (for_each_row_run edited (get_conn d)) as H; simpl in H.
  destruct (run_rows edited d) as [d'|e].
  - rewrite H; reflexivity.
  - destruct H as (c' & -> & Hp). simpl. rewrite Hp. reflexivity.
Qed.

Lemma run_rows_app (pre post : list edited_row) (d : db) :
  run_rows (pre ++ post)%list d =
  match run_rows pre d with
  | Ok d1 => run_rows post d1
  | Err e => Err e
  end.
Proof.
  revert d; induction pre as [|r pre IH]; intros d; simpl; [reflexivity|].
  destruct (row_statement r d); [apply IH | reflexivity].
Qed.

(** C3, as stated, fails.  In [acme_db] the first edited row alone is a
    valid update of service 1 and, run by itself, is committed.  In a
    batch where the second row has a negative cost, the call raises at the
    second row and the database is left as [acme_db]: the update of the
    first row is not committed. *)
Lemma update_services_bulk_discards_earlier_rows :
  update_services_bulk [edit_web] acme_db = (acme_db_web, None) /\
  update_services_bulk [edit_web; edit_negative] acme_db
    = (acme_db, Some (IntegrityError MonthlyCostCheck)) /\
  acme_db <> acme_db_web /\
  fst (update_services_bulk [edit_web; edit_negative] acme_db) <> acme_db_web.
Proof.
  repeat split; try reflexivity; discriminate.
Qed.

(** C3, amended: the rows are processed one at a time, in order, on one
    connection that commits once, after the last row.  When every row's
    UPDATE succeeds the database is the result of all of them; when the
    UPDATE of a row fails the call raises that row's error, the later rows
    are not run, and nothing is committed: the database is as it was
    before the call, so the updates of the earlier rows are discarded. *)
Theorem update_services_bulk_commits_all_or_nothing
    (edited : list edited_row) (d : db) :
  (forall d', run_rows edited d = Ok d' ->
     update_services_bulk edited d = (d', None)) /\
  (forall pre r post d1 e,
     edited = (pre ++ r :: post)%list ->
     run_rows pre d = Ok d1 ->
     row_statement r d1 = Err e ->
     update_services_bulk edited d = (d, Some e)).
Proof.
  split.
  - intros d' H. rewrite update_services_bulk_eq, H. reflexivity.
  - intros pre r post d1 e -> Hpre Hr.
    rewrite update_services_bulk_eq, run_rows_app, Hpre. simpl.
    rewrite Hr. reflexivity.
Qed.

Lemma update_services_bulk_commits_all_or_nothing_witness :
  update_services_bulk [edit_web; edit_negative] acme_db
    = (acme_db, Some (IntegrityError MonthlyCostCheck)).
Proof.
  apply (proj2 (update_services_bulk_commits_all_or_nothing
                  [edit_web; edit_negative] acme_db)
           [edit_web] edit_negative [] acme_db_web
           (IntegrityError MonthlyCostCheck));
    reflexivity.
Defined.

(** ** Updates and deletes by id *)

Lemma existsb_constant {A : Type} (f : A -> bool) (b : bool) (l : list A) :
  (forall x, In x l -> f x = b) -> l <> [] -> existsb f l = b.
Proof.
  induction l as [|a l IH]; intros Hf Hne; [congruence|]. simpl.
  rewrite (Hf a (or_introl eq_refl)).
  destruct l as [|a' l'].
  - simpl. apply orb_false_r.
  - rewrite IH; [apply orb_diag | intros x Hx; apply Hf; right; exact Hx | discriminate].
Qed.

Lemma gone_references (cs : list client) (cid x : Z) :
  In cid (map c_id cs) ->
  existsb (fun c => c_id c =? x) (filter (fun c => c_id c =? cid) cs) = (x =? cid).
Proof.
  intros Hin. apply existsb_constant.
  - intros c Hc. apply filter_In in Hc. destruct Hc as [_ Hc].
    apply Z.eqb_eq in Hc. rewrite Hc. apply Z.eqb_sym.
  - apply in_map_iff in Hin. destruct Hin as (c & Hid & Hc).
    intros Hnil.
    assert (Hf : In c (filter (fun c => c_id c =? cid) cs)).
    { apply filter_In. split; [exact Hc | apply Z.eqb_eq; exact Hid]. }
    rewrite Hnil in Hf. exact Hf.
Qed.

(** C8: an update or delete that names an id absent from its table
    selects no row: [upsert_client] with such an id (whatever the other
    arguments), [delete_client] and [delete_service] return normally and
    leave the database as it was. *)
Theorem missing_id_is_a_silent_no_op
    (d : db) (cid sid : Z) (name status notes now : string) :
  ~ In cid (map c_id (clients d)) ->
  ~ In sid (map s_id (services d)) ->
  upsert_client (Some cid) name status notes now d = (d, None) /\
  delete_client cid d = (d, None) /\
  delete_service sid d = (d, None).
Proof.
  intros Hc Hs.
  pose proof (id_not_selected c_id cid (clients d) Hc) as Hc'.
  pose proof (id_not_selected s_id sid (services d) Hs) as Hs'.
  repeat split.
  - unfold upsert_client. rewrite exec_sql_eq. unfold update_client.
    rewrite sql_update_no_match by exact Hc'. rewrite db_eta. reflexivity.
  - unfold delete_client. rewrite exec_sql_eq. unfold delete_client_stmt, sql_delete.
    rewrite (filter_drops_all (fun c => c_id c =? cid)) by exact Hc'. simpl.
    rewrite filter_true.
    rewrite filter_keeps_all, db_eta; [reflexivity|].
    intros c Hin. rewrite (Hc' c Hin). reflexivity.
  - unfold delete_service. rewrite exec_sql_eq. unfold delete_service_stmt, sql_delete.
    rewrite filter_keeps_all, db_eta; [reflexivity|].
    intros s Hin. rewrite (Hs' s Hin). reflexivity.
Qed.

Lemma missing_id_is_a_silent_no_op_witness :
  upsert_client (Some 9) "Zed" "Bogus" "" "2024-05-01T00:00:00" acme_db
    = (acme_db, None) /\
  delete_client 9 acme_db = (acme_db, None) /\
  delete_service 9 acme_db = (acme_db, None).
Proof.
  apply (missing_id_is_a_silent_no_op acme_db 9 9 "Zed" "Bogus" ""
           "2024-05-01T00:00:00"); simpl; intros H; lia.
Defined.

(** C5: deleting an existing Client succeeds; afterwards the clients
    table holds exactly the rows with another id, and the services table
    exactly the rows whose [client_id] is another id, in their former
    order.  So the Client and all of its Services are gone and no other
    row of either table is. *)
Theorem delete_client_removes_client_and_its_services (d : db) (cid : Z) :
  In cid (map c_id (clients d)) ->
  exists d',
    delete_client cid d = (d', None) /\
    clients d' = filter (fun c => negb (c_id c =? cid)) (clients d) /\
    services d' = filter (fun s => negb (s_client_id s =? cid)) (services d) /\
    (forall c, In c (clients d') <-> In c (clients d) /\ c_id c <> cid) /\
    (forall s, In s (services d') <-> In s (services d) /\ s_client_id s <> cid).
Proof.
  intros Hin. unfold delete_client. rewrite exec_sql_eq.
  unfold delete_client_stmt, sql_delete.
  eexists; split; [reflexivity|]. simpl.
  assert (Hs : filter (fun s => negb (existsb (fun c => c_id c =? s_client_id s)
                                  (filter (fun c => c_id c =? cid) (clients d))))
                 (services d)
               = filter (fun s => negb (s_client_id s =? cid)) (services d)).
  { apply filter_ext. intros s. rewrite gone_references by exact Hin. reflexivity. }
  rewrite Hs. repeat split.
  - apply filter_In in H; tauto.
  - apply filter_In in H. destruct H as [_ H].
    apply negb_true_iff, Z.eqb_neq in H. exact H.
  - intros [H1 H2]. apply filter_In. split; [exact H1|].
    apply negb_true_iff, Z.eqb_neq. exact H2.
  - apply filter_In in H; tauto.
  - apply filter_In in H. destruct H as [_ H].
    apply negb_true_iff, Z.eqb_neq in H. exact H.
  - intros [H1 H2]. apply filter_In. split; [exact H1|].
    apply negb_true_iff, Z.eqb_neq. exact H2.
Qed.

Lemma delete_client_removes_client_and_its_services_witness :
  exists d',
    delete_client 1 two_clients_db = (d', None) /\
    clients d' = [beta] /\ services d' = [audit] /\
    (forall c, In c (clients d') <-> In c (clients two_clients_db) /\ c_id c <> 1) /\
    (forall s, In s (services d') <-> In s (services two_clients_db) /\ s_client_id s <> 1).
Proof.
  apply (delete_client_removes_client_and_its_services two_clients_db 1).
  simpl. left. reflexivity.
Defined.

(** ** Updating a client in place *)

Lemma Forall2_map_self {A : Type} (P : A -> A -> Prop) (f : A -> A) (l : list A) :
  (forall a, In a l -> P a (f a)) -> Forall2 P l (map f l).
Proof.
  induction l as [|a l IH]; simpl; intros H; constructor.
  - apply H; left; reflexivity.
  - apply IH. intros x Hx. apply H; right; exact Hx.
Qed.

Lemma Forall2_same {A : Type} (P : A -> A -> Prop) (l : list A) :
  (forall a, In a l -> P a a) -> Forall2 P l l.
Proof.
  intros H. rewrite <- (map_id l) at 2. apply Forall2_map_self. exact H.
Qed.

(** C9: [upsert_client] with an id leaves the services table and both
    id counters alone, and maps the clients table row by row: every row
    keeps its position, id and creation time, and a row with another id is
    unchanged altogether.  If the call returns normally, the rows with the
    given id carry the trimmed name, the status and the trimmed notes
    passed in; it returns normally whenever the status is one of the
    enumeration. *)
Theorem upsert_client_updates_in_place
    (d : db) (cid : Z) (name status notes now : string) :
  let r := upsert_client (Some cid) name status notes now d in
  services (fst r) = services d /\
  clients_seq (fst r) = clients_seq d /\
  services_seq (fst r) = services_seq d /\
  Forall2 (fun c c' =>
             c_id c' = c_id c /\ c_created_at c' = c_created_at c /\
             (c_id c <> cid -> c' = c))
          (clients d) (clients (fst r)) /\
  (snd r = None ->
   Forall2 (fun c c' =>
              c_id c = cid ->
              c_name c' = strip name /\ c_status c' = status /\
              c_notes c' = Some (strip notes))
           (clients d) (clients (fst r))) /\
  (status_in_enum status = true -> snd r = None).
Proof.
  unfold upsert_client. rewrite exec_sql_eq. unfold update_client.
  set (w := fun c : client => c_id c =? cid).
  set (f := fun c : client =>
              mkClient (c_id c) (strip name) status (Some (strip notes))
                       (c_created_at c)).
  destruct (sql_update w f client_checks (clients d)) as [rows|e] eqn:E; simpl.
  - apply sql_update_ok in E. destruct E as [-> _].
    repeat split; try reflexivity.
    + apply Forall2_map_self. intros c _. unfold replaced, w.
      destruct (c_id c =? cid) eqn:Ec; simpl; repeat split; try reflexivity.
      intros Hne. apply Z.eqb_eq in Ec. contradiction.
    + intros _. apply Forall2_map_self. intros c _ Hc. unfold replaced, w.
      rewrite Hc, Z.eqb_refl. simpl. repeat split.
  - repeat split; try reflexivity.
    + apply Forall2_same. intros c _. repeat split.
    + discriminate.
    + intros Hst. apply sql_update_err in E.
      destruct E as (c & k & _ & _ & Hk & _).
      unfold client_checks, f in Hk. simpl in Hk. rewrite Hst in Hk. discriminate.
Qed.

Lemma upsert_client_updates_in_place_witness :
  upsert_client (Some 1) " Acme Ltd " "Inactive" " moved " "2024-05-01T00:00:00"
    two_clients_db
  = (mkDb [mkClient 1 "Acme Ltd" "Inactive" (Some "moved") "2024-01-01T00:00:00"; beta]
          [hosting; old_plan; audit] 2 3, None) /\
  snd (upsert_client (Some 1) " Acme Ltd " "Inactive" " moved " "2024-05-01T00:00:00"
         two_clients_db) = None.
Proof.
  split; [reflexivity|].
  apply (upsert_client_updates_in_place two_clients_db 1 " Acme Ltd " "Inactive"
           " moved " "2024-05-01T00:00:00").
  reflexivity.
Defined.

(** ** Dashboard totals *)



(** ** The schema constraints hold in every reachable state *)

Lemma max_rowid_bounds (ids : list Z) (i : Z) : In i ids -> i <= max_rowid ids.
Proof.
  induction ids as [|j ids IH]; simpl; [contradiction|].
  intros [->|H]; [lia | specialize (IH H); lia].
Qed.

Lemma next_rowid_fresh (ids : list Z) (seq : Z) : ~ In (next_rowid ids seq) ids.
Proof.
  intros H. apply max_rowid_bounds in H. unfold next_rowid in H. lia.
Qed.

Lemma NoDup_snoc {A : Type} (l : list A) (x : A) :
  NoDup l -> ~ In x l -> NoDup (l ++ [x]).
Proof.
  intros Hl Hx. apply (Permutation_NoDup (Permutation_cons_append l x)).
  constructor; assumption.
Qed.

Lemma NoDup_map_filter {A B : Type} (f : A -> B) (g : A -> bool) (l : list A) :
  NoDup (map f l) -> NoDup (map f (filter g l)).
Proof.
  induction l as [|a l IH]; simpl; intros H; [constructor|].
  inversion H as [|? ? Hn Hd]; subst.
  destruct (g a); simpl; [|apply IH; exact Hd].
  constructor; [|apply IH; exact Hd].
  intros Hin. apply Hn. apply in_map_iff in Hin. destruct Hin as (x & Hx & Hin).
  apply in_map_iff. exists x. split; [exact Hx|].
  apply filter_In in Hin. tauto.
Qed.

Lemma Forall_filter {A : Type} (P : A -> Prop) (g : A -> bool) (l : list A) :
  Forall P l -> Forall P (filter g l).
Proof.
  intros H. apply Forall_forall. intros x Hx. apply filter_In in Hx.
  rewrite Forall_forall in H. apply H. tauto.
Qed.

Lemma service_checks_pass (s : service) :
  service_checks s = None ->
  (0 <= s_monthly_cost s)%Q /\ (s_is_active s = 0 \/ s_is_active s = 1).
Proof.
  unfold service_checks.
  destruct (Qle_bool 0 (s_monthly_cost s)) eqn:Ec; simpl; [|discriminate].
  destruct (s_is_active s =? 0) eqn:E0; simpl.
  - intros _. split; [apply Qle_bool_iff; exact Ec | left; apply Z.eqb_eq; exact E0].
  - destruct (s_is_active s =? 1) eqn:E1; simpl; [|discriminate].
    intros _. split; [apply Qle_bool_iff; exact Ec | right; apply Z.eqb_eq; exact E1].
Qed.

Lemma service_checks_negative (s : service) :
  (s_monthly_cost s < 0)%Q -> service_checks s = Some MonthlyCostCheck.
Proof.
  intros H. unfold service_checks.
  destruct (Qle_bool 0 (s_monthly_cost s)) eqn:Ec; simpl; [|reflexivity].
  apply Qle_bool_iff in Ec. lra.
Qed.

Lemma client_checks_pass (c : client) :
  client_checks c = None -> status_in_enum (c_status c) = true.
Proof.
  unfold client_checks. destruct (status_in_enum (c_status c)); congruence.
Qed.

Lemma insert_client_ok (name status notes now : string) (d d' : db) :
  db_ok d -> insert_client name status notes now d = Ok d' -> db_ok d'.
Proof.
  intros [H1 H2 H3 H4 H5 H6]. unfold insert_client.
  destruct (client_checks _) eqn:Ec; [discriminate|].
  intros H; inversion H; subst; clear H.
  apply client_checks_pass in Ec. simpl in Ec.
  constructor; simpl; try assumption.
  - rewrite map_app. simpl. apply NoDup_snoc; [exact H1 | apply next_rowid_fresh].
  - apply Forall_app. split; [exact H3 | constructor; [exact Ec | constructor]].
  - eapply Forall_impl; [|exact H6]. simpl. intros s Hs.
    rewrite map_app. apply in_or_app. left. exact Hs.
Qed.

Lemma update_client_ok (name status notes : string) (id : Z) (d d' : db) :
  db_ok d -> update_client name status notes id d = Ok d' -> db_ok d'.
Proof.
  intros [H1 H2 H3 H4 H5 H6]. unfold update_client.
  destruct (sql_update _ _ _ _) as [rows|e] eqn:E; [|discriminate].
  intros H; inversion H; subst; clear H.
  apply sql_update_ok in E. destruct E as [-> HF].
  assert (Hids : map c_id (map (replaced (fun c => c_id c =? id)
                   (fun c => mkClient (c_id c) name status (Some notes) (c_created_at c)))
                   (clients d)) = map c_id (clients d)).
  { rewrite map_map. apply map_ext. intros c. unfold replaced.
    destruct (c_id c =? id); reflexivity. }
  constructor; simpl; try assumption.
  - rewrite Hids. exact H1.
  - apply Forall_forall. intros c' Hc'. apply in_map_iff in Hc'.
    destruct Hc' as (c & <- & Hc). unfold replaced.
    rewrite Forall_forall in HF, H3.
    destruct (c_id c =? id) eqn:Ec.
    + apply client_checks_pass. apply (HF c Hc Ec).
    + apply H3. exact Hc.
  - rewrite Hids. exact H6.
Qed.

Lemma delete_client_stmt_ok (id : Z) (d d' : db) :
  db_ok d -> delete_client_stmt id d = Ok d' -> db_ok d'.
Proof.
  intros [H1 H2 H3 H4 H5 H6]. unfold delete_client_stmt, sql_delete.
  intros H; inversion H; subst; clear H.
  constructor; simpl.
  - apply NoDup_map_filter. exact H1.
  - apply NoDup_map_filter. exact H2.
  - apply Forall_filter. exact H3.
  - apply Forall_filter. exact H4.
  - apply Forall_filter. exact H5.
  - apply Forall_forall. intros s Hs. apply filter_In in Hs. destruct Hs as [Hs Hk].
    rewrite Forall_forall in H6. specialize (H6 s Hs).
    apply in_map_iff in H6. destruct H6 as (c & Hid & Hc).
    apply in_map_iff. exists c. split; [exact Hid|].
    apply filter_In. split; [exact Hc|].
    destruct (c_id c =? id) eqn:Ec; [|reflexivity].
    apply negb_true_iff in Hk.
    assert (Hex : existsb (fun c0 => c_id c0 =? s_client_id s)
                    (filter (fun c0 => c_id c0 =? id) (clients d)) = true).
    { apply existsb_exists. exists c. split.
      - apply filter_In. split; assumption.
      - apply Z.eqb_eq. exact Hid. }
    congruence.
Qed.

Lemma insert_service_ok (client_id : Z) (name : string) (cost : Q) (active : Z)
    (now : string) (d d' : db) :
  db_ok d -> insert_service client_id name cost active now d = Ok d' -> db_ok d'.
Proof.
  intros [H1 H2 H3 H4 H5 H6]. unfold insert_service.
  destruct (service_checks _) eqn:Ec; [discriminate|].
  destruct (existsb _ (clients d)) eqn:Efk; [|discriminate].
  intros H; inversion H; subst; clear H.
  apply service_checks_pass in Ec. simpl in Ec. destruct Ec as [Ec Ea].
  apply existsb_exists in Efk. destruct Efk as (c & Hc & Hid). apply Z.eqb_eq in Hid.
  constructor; simpl; try assumption.
  - rewrite map_app. simpl. apply NoDup_snoc; [exact H2 | apply next_rowid_fresh].
  - apply Forall_app. split; [exact H4 | constructor; [exact Ec | constructor]].
  - apply Forall_app. split; [exact H5 | constructor; [exact Ea | constructor]].
  - apply Forall_app. split; [exact H6 | constructor; [|constructor]].
    simpl. rewrite <- Hid. apply in_map. exact Hc.
Qed.

Lemma update_service_ok (name : string) (cost : Q) (active id : Z) (d d' : db) :
  db_ok d -> update_service name cost active id d = Ok d' -> db_ok d'.
Proof.
  intros [H1 H2 H3 H4 H5 H6]. unfold update_service.
  destruct (sql_update _ _ _ _) as [rows|e] eqn:E; [|discriminate].
  intros H; inversion H; subst; clear H.
  apply sql_update_ok in E. destruct E as [-> HF].
  set (w := fun s : service => s_id s =? id) in *.
  set (f := fun s : service =>
              mkService (s_id s) (s_client_id s) name cost active (s_created_at s)) in *.
  assert (Hids : map s_id (map (replaced w f) (services d)) = map s_id (services d)).
  { rewrite map_map. apply map_ext. intros s. unfold replaced.
    destruct (w s); reflexivity. }
  assert (Hrow : forall P : service -> Prop,
             (forall s, In s (services d) -> w s = true -> P (f s)) ->
             Forall P (services d) -> Forall P (map (replaced w f) (services d))).
  { intros P Hset Hold. apply Forall_forall. intros s' Hs'.
    apply in_map_iff in Hs'. destruct Hs' as (s & <- & Hs). unfold replaced.
    rewrite Forall_forall in Hold.
    destruct (w s) eqn:Ew; [apply Hset; assumption | apply Hold; exact Hs]. }
  rewrite Forall_forall in HF.
  constructor; simpl; try assumption.
  - rewrite Hids. exact H2.
  - apply Hrow; [|exact H4]. intros s Hs Ew.
    apply (service_checks_pass (f s)). apply HF; assumption.
  - apply Hrow; [|exact H5]. intros s Hs Ew.
    apply (service_checks_pass (f s)). apply HF; assumption.
  - apply Hrow; [|exact H6]. intros s Hs Ew. simpl.
    rewrite Forall_forall in H6. apply H6. exact Hs.
Qed.

Lemma delete_service_stmt_ok (id : Z) (d d' : db) :
  db_ok d -> delete_service_stmt id d = Ok d' -> db_ok d'.
Proof.
  intros [H1 H2 H3 H4 H5 H6]. unfold delete_service_stmt, sql_delete.
  intros H; inversion H; subst; clear H.
  constructor; simpl; try assumption.
  - apply NoDup_map_filter. exact H2.
  - apply Forall_filter. exact H4.
  - apply Forall_filter. exact H5.
  - apply Forall_filter. exact H6.
Qed.

Lemma exec_sql_ok (s : statement) (d : db) :
  (forall d', s d = Ok d' -> db_ok d') -> db_ok d -> db_ok (fst (exec_sql s d)).
Proof.
  intros Hs Hd. rewrite exec_sql_eq.
  destruct (s d) as [d'|e]; simpl; [apply Hs; reflexivity | exact Hd].
Qed.

Lemma run_rows_ok (rows : list edited_row) (d d' : db) :
  db_ok d -> run_rows rows d = Ok d' -> db_ok d'.
Proof.
  revert d; induction rows as [|r rows IH]; simpl; intros d Hd H.
  - inversion H; subst; exact Hd.
  - destruct (row_statement r d) as [d1|e] eqn:E; [|discriminate].
    apply (IH d1); [|exact H].
    unfold row_statement in E. eapply update_service_ok; eassumption.
Qed.

Lemma empty_db_ok : db_ok empty_db.
Proof. constructor; simpl; constructor. Qed.

Lemma reachable_db_ok (d : db) : reachable d -> db_ok d.
Proof.
  induction 1 as [| d [id|] name status notes now _ IH | d id _ IH
                  | d cid sname cost active now _ IH | d edited _ IH | d id _ IH].
  - exact empty_db_ok.
  - apply exec_sql_ok; [|exact IH]. intros d'. apply update_client_ok, IH.
  - apply exec_sql_ok; [|exact IH]. intros d'. apply insert_client_ok, IH.
  - apply exec_sql_ok; [|exact IH]. intros d'. apply delete_client_stmt_ok, IH.
  - apply exec_sql_ok; [|exact IH]. intros d'. apply insert_service_ok, IH.
  - rewrite update_services_bulk_eq.
    destruct (run_rows edited d) as [d'|e] eqn:E; simpl; [|exact IH].
    eapply run_rows_ok; eassumption.
  - apply exec_sql_ok; [|exact IH]. intros d'. apply delete_service_stmt_ok, IH.
Qed.

(** ** Negative costs *)

Lemma row_statement_ids (r : edited_row) (d d' : db) :
  row_statement r d = Ok d' -> map s_id (services d') = map s_id (services d).
Proof.
  unfold row_statement, update_service.
  destruct (sql_update _ _ _ _) as [rows|e] eqn:E; [|discriminate].
  intros H; inversion H; subst; clear H. simpl.
  apply sql_update_ok in E. destruct E as [-> _].
  rewrite map_map. apply map_ext. intros s. unfold replaced.
  destruct (s_id s =? e_id r); reflexivity.
Qed.

Lemma row_statement_err (r : edited_row) (d : db) (e : exn) :
  row_statement r d = Err e -> e = IntegrityError MonthlyCostCheck.
Proof.
  unfold row_statement, update_service.
  destruct (sql_update _ _ _ _) as [rows|e'] eqn:E; [discriminate|].
  intros H; inversion H; subst; clear H.
  apply sql_update_err in E. destruct E as (s & k & _ & _ & Hk & ->).
  unfold service_checks in Hk. simpl in Hk.
  destruct (Qle_bool 0 (e_monthly_cost r)); simpl in Hk; [|congruence].
  destruct (e_is_active r); simpl in Hk; discriminate.
Qed.

Lemma row_statement_negative (r : edited_row) (d : db) :
  (e_monthly_cost r < 0)%Q -> In (e_id r) (map s_id (services d)) ->
  row_statement r d = Err (IntegrityError MonthlyCostCheck).
Proof.
  intros Hneg Hin. apply in_map_iff in Hin. destruct Hin as (s & Hid & Hs).
  destruct (row_statement r d) as [d'|e] eqn:E.
  - exfalso. unfold row_statement, update_service in E.
    destruct (sql_update_rejects (fun s0 => s_id s0 =? e_id r)
                (fun s0 => mkService (s_id s0) (s_client_id s0)
                             (strip (e_service_name r)) (e_monthly_cost r)
                             (if e_is_active r then 1 else 0) (s_created_at s0))
                service_checks (services d) s MonthlyCostCheck Hs) as [e He].
    + apply Z.eqb_eq. exact Hid.
    + apply service_checks_negative. exact Hneg.
    + rewrite He in E. discriminate.
  - f_equal. eapply row_statement_err. exact E.
Qed.

Lemma run_rows_negative (rows : list edited_row) (r : edited_row) (d : db) :
  In r rows -> (e_monthly_cost r < 0)%Q -> In (e_id r) (map s_id (services d)) ->
  run_rows rows d = Err (IntegrityError MonthlyCostCheck).
Proof.
  revert d; induction rows as [|r0 rows IH]; simpl; intros d Hin Hneg Hid;
    [contradiction|].
  destruct (row_statement r0 d) as [d1|e] eqn:E.
  - destruct Hin as [->|Hin].
    + rewrite (row_statement_negative r d Hneg Hid) in E. discriminate.
    + apply IH; [exact Hin | exact Hneg|].
      rewrite (row_statement_ids r0 d d1 E). exact Hid.
  - f_equal. eapply row_statement_err. exact E.
Qed.

(** C6: in every reachable state each Service has [monthly_cost >= 0].
    [add_service] with a negative cost raises the error of the cost
    constraint and leaves the database as it was; so does
    [update_services_bulk] for a batch in which some row carries a
    negative cost for a stored Service. *)
Theorem monthly_cost_never_negative :
  (forall d, reachable d -> Forall (fun s => (0 <= s_monthly_cost s)%Q) (services d)) /\
  (forall d client_id service_name monthly_cost is_active now,
     (monthly_cost < 0)%Q ->
     add_service client_id service_name monthly_cost is_active now d
       = (d, Some (IntegrityError MonthlyCostCheck))) /\
  (forall d edited r,
     In r edited -> (e_monthly_cost r < 0)%Q ->
     In (e_id r) (map s_id (services d)) ->
     update_services_bulk edited d = (d, Some (IntegrityError MonthlyCostCheck))).
Proof.
  repeat split.
  - intros d Hd. apply reachable_db_ok in Hd. apply (ok_cost d Hd).
  - intros d cid name cost active now Hneg.
    unfold add_service. rewrite exec_sql_eq. unfold insert_service.
    rewrite service_checks_negative by exact Hneg. reflexivity.
  - intros d edited r Hin Hneg Hid.
    rewrite update_services_bulk_eq, (run_rows_negative edited r d Hin Hneg Hid).
    reflexivity.
Qed.

Lemma acme_db_reachable : reachable acme_db.
Proof.
  pose (d1 := fst (upsert_client None "Acme" "Active" "" "2024-01-01T00:00:00" empty_db)).
  pose (d2 := fst (add_service 1 "Hosting" 100 true "2024-01-02T00:00:00" d1)).
  change acme_db
    with (fst (update_services_bulk [mkEdited 2 "Old Plan" 50 false]
                 (fst (add_service 1 "Old Plan" 50 true "2024-01-03T00:00:00" d2)))).
  repeat constructor.
Qed.

Lemma monthly_cost_never_negative_witness :
  Forall (fun s => (0 <= s_monthly_cost s)%Q) (services acme_db) /\
  add_service 1 "  Ads  " (-5) true "2024-05-01T00:00:00" acme_db
    = (acme_db, Some (IntegrityError MonthlyCostCheck)) /\
  update_services_bulk [edit_web; edit_negative] acme_db
    = (acme_db, Some (IntegrityError MonthlyCostCheck)).
Proof.
  destruct monthly_cost_never_negative as (Hinv & Hadd & Hbulk).
  split; [|split].
  - apply Hinv. exact acme_db_reachable.
  - apply Hadd. reflexivity.
  - apply (Hbulk acme_db [edit_web; edit_negative] edit_negative).
    + right; left; reflexivity.
    + reflexivity.
    + right; left; reflexivity.
Defined.

(** ** Client status *)

Lemma status_in_enum_iff (st : string) :
  status_in_enum st = true <-> st = "Active" \/ st = "Inactive" \/ st = "Prospect".
Proof.
  unfold status_in_enum. rewrite !orb_true_iff, !String.eqb_eq. tauto.
Qed.

Lemma status_outside_enum (st : string) :
  st <> "Active" -> st <> "Inactive" -> st <> "Prospect" -> status_in_enum st = false.
Proof.
  intros H1 H2 H3. destruct (status_in_enum st) eqn:E; [|reflexivity].
  apply status_in_enum_iff in E. tauto.
Qed.

(** C7: in every reachable state each Client's status is Active, Inactive
    or Prospect.  With a status outside the enumeration, [upsert_client]
    raises the error of the status constraint when it inserts (no id) and
    when it updates a stored Client (the id of a row), and in every case
    the database is left as it was. *)
Theorem client_status_always_in_enumeration :
  (forall d, reachable d ->
     Forall (fun c => c_status c = "Active" \/ c_status c = "Inactive"
                      \/ c_status c = "Prospect") (clients d)) /\
  (forall d name status notes now,
     status <> "Active" -> status <> "Inactive" -> status <> "Prospect" ->
     upsert_client None name status notes now d
       = (d, Some (IntegrityError StatusCheck))) /\
  (forall d client_id name status notes now,
     status <> "Active" -> status <> "Inactive" -> status <> "Prospect" ->
     In client_id (map c_id (clients d)) ->
     upsert_client (Some client_id) name status notes now d
       = (d, Some (IntegrityError StatusCheck))) /\
  (forall d client_id name status notes now,
     status <> "Active" -> status <> "Inactive" -> status <> "Prospect" ->
     fst (upsert_client client_id name status notes now d) = d).
Proof.
  assert (Hins : forall d name status notes now,
            status_in_enum status = false ->
            upsert_client None name status notes now d
              = (d, Some (IntegrityError StatusCheck))).
  { intros d name status notes now Hst. unfold upsert_client.
    rewrite exec_sql_eq. unfold insert_client, client_checks. simpl.
    rewrite Hst. reflexivity. }
  assert (Hupd : forall d cid name status notes now,
            status_in_enum status = false ->
            In cid (map c_id (clients d)) ->
            upsert_client (Some cid) name status notes now d
              = (d, Some (IntegrityError StatusCheck))).
  { intros d cid name status notes now Hst Hin. unfold upsert_client.
    rewrite exec_sql_eq. unfold update_client.
    apply in_map_iff in Hin. destruct Hin as (c & Hid & Hc).
    destruct (sql_update _ _ _ _) as [rows|e] eqn:E.
    - apply sql_update_ok in E. destruct E as [_ HF].
      rewrite Forall_forall in HF. specialize (HF c Hc).
      unfold client_checks in HF. simpl in HF. rewrite Hst in HF.
      assert (Hw : (c_id c =? cid) = true) by (apply Z.eqb_eq; exact Hid).
      specialize (HF Hw). discriminate.
    - apply sql_update_err in E. destruct E as (c' & k & _ & _ & Hk & ->).
      unfold client_checks in Hk. simpl in Hk. rewrite Hst in Hk.
      inversion Hk. reflexivity. }
  repeat split.
  - intros d Hd. apply reachable_db_ok in Hd.
    eapply Forall_impl; [|exact (ok_status d Hd)].
    intros c Hc. apply status_in_enum_iff. exact Hc.
  - intros d name status notes now H1 H2 H3.
    apply Hins, status_outside_enum; assumption.
  - intros d cid name status notes now H1 H2 H3 Hin.
    apply Hupd; [apply status_outside_enum; assumption | exact Hin].
  - intros d [cid|] name status notes now H1 H2 H3.
    + unfold upsert_client. rewrite exec_sql_eq.
      destruct (update_client _ _ _ _ d) as [d'|e] eqn:E; [|reflexivity].
      simpl. unfold update_client in E.
      destruct (sql_update _ _ _ _) as [rows|e] eqn:E'; [|discriminate].
      inversion E; subst; clear E.
      apply sql_update_ok in E'. destruct E' as [-> HF].
      match goal with
      | |- mkDb (map ?g (clients d)) _ _ _ = _ =>
          assert (Hsame : map g (clients d) = clients d)
      end.
      { rewrite <- (map_id (clients d)) at 2. apply map_ext_in.
        intros c Hc. unfold replaced. destruct (c_id c =? cid) eqn:Ec; [|reflexivity].
        rewrite Forall_forall in HF. specialize (HF c Hc Ec).
        unfold client_checks in HF. simpl in HF.
        rewrite (status_outside_enum status H1 H2 H3) in HF. discriminate. }
      rewrite Hsame. apply db_eta.
    + rewrite Hins by (apply status_outside_enum; assumption). reflexivity.
Qed.

Lemma client_status_always_in_enumeration_witness :
  Forall (fun c => c_status c = "Active" \/ c_status c = "Inactive"
                   \/ c_status c = "Prospect") (clients acme_db) /\
  upsert_client None "Zed" "Paused" "" "2024-05-01T00:00:00" acme_db
    = (acme_db, Some (IntegrityError StatusCheck)) /\
  upsert_client (Some 1) "Acme" "active" "" "2024-05-01T00:00:00" acme_db
    = (acme_db, Some (IntegrityError StatusCheck)).
Proof.
  destruct client_status_always_in_enumeration as (Hinv & Hins & Hupd & _).
  split; [|split].
  - apply Hinv. exact acme_db_reachable.
  - apply Hins; discriminate.
  - apply Hupd; try discriminate. left; reflexivity.
Defined.

(** ** The revenue breakdown *)

Lemma key_eqb_refl (k : group_key) : key_eqb k k = true.
Proof.
  destruct k as [[i n] st]. simpl.
  rewrite Z.eqb_refl, !String.eqb_refl. reflexivity.
Qed.

Lemma key_eqb_id (c c' : client) :
  c_id c <> c_id c' -> key_eqb (client_key c) (client_key c') = false.
Proof.
  intros H. unfold client_key. simpl.
  apply Z.eqb_neq in H. rewrite H. reflexivity.
Qed.

Lemma joined_with_fst (c : client) (ss : list service) (j : client * option service) :
  In j (joined_with c ss) -> fst j = c.
Proof.
  unfold joined_with.
  destruct (filter _ ss) as [|s m]; simpl.
  - intros [<-|[]]. reflexivity.
  - intros [<-|H]; [reflexivity|].
    apply in_map_iff in H. destruct H as (s' & <- & _). reflexivity.
Qed.

Lemma joined_with_nonempty (c : client) (ss : list service) : joined_with c ss <> [].
Proof.
  unfold joined_with. destruct (filter _ ss); simpl; discriminate.
Qed.

Lemma left_join_cons (c : client) (cs : list client) (ss : list service) :
  left_join (c :: cs) ss = (joined_with c ss ++ left_join cs ss)%list.
Proof. reflexivity. Qed.

Lemma left_join_fst (cs : list client) (ss : list service) (j : client * option service) :
  In j (left_join cs ss) -> In (fst j) cs.
Proof.
  unfold left_join. intros H. apply in_flat_map in H.
  destruct H as (c & Hc & Hj). apply joined_with_fst in Hj. subst c. exact Hc.
Qed.

Lemma filter_twice {A : Type} (f : A -> bool) (l : list A) :
  filter f (filter f l) = filter f l.
Proof.
  apply filter_keeps_all. intros x Hx. apply filter_In in Hx. tauto.
Qed.

Lemma distinct_keys_run (k : group_key) (pre rest : list group_key) :
  (forall k', In k' pre -> k' = k) -> pre <> [] ->
  distinct_keys (pre ++ rest) =
  k :: filter (fun k' => negb (key_eqb k k')) (distinct_keys rest).
Proof.
  induction pre as [|k0 pre IH]; intros Hall Hne; [congruence|].
  assert (k0 = k) by (apply Hall; left; reflexivity). subst k0.
  destruct pre as [|k1 pre'].
  - reflexivity.
  - change (distinct_keys ((k :: k1 :: pre') ++ rest))
      with (k :: filter (fun k' => negb (key_eqb k k'))
                   (distinct_keys ((k1 :: pre') ++ rest))).
    rewrite IH; [| intros k' Hk'; apply Hall; right; exact Hk' | discriminate].
    simpl. rewrite key_eqb_refl. simpl. rewrite filter_twice. reflexivity.
Qed.

Section Breakdown.
Variable ss : list service.

Lemma distinct_keys_left_join (cs : list client) :
  NoDup (map c_id cs) ->
  distinct_keys (map key_of (left_join cs ss)) = map client_key cs.
Proof.
  induction cs as [|c cs IH]; intros Hnd; [reflexivity|].
  simpl in Hnd. inversion Hnd as [|? ? Hn Hd]; subst.
  rewrite left_join_cons, map_app.
  rewrite (distinct_keys_run (client_key c)).
  - rewrite (IH Hd).
    change (map client_key (c :: cs)) with (client_key c :: map client_key cs).
    f_equal. apply filter_keeps_all.
    intros k Hk. apply in_map_iff in Hk. destruct Hk as (c' & <- & Hc').
    rewrite key_eqb_id; [reflexivity|].
    intros Heq. apply Hn. rewrite Heq. apply in_map. exact Hc'.
  - intros k Hk. apply in_map_iff in Hk. destruct Hk as (j & <- & Hj).
    apply joined_with_fst in Hj. unfold key_of, client_key. rewrite Hj. reflexivity.
  - pose proof (joined_with_nonempty c ss) as Hne.
    destruct (joined_with c ss); [congruence | discriminate].
Qed.

Lemma group_of_client (cs : list client) (c : client) :
  NoDup (map c_id cs) -> In c cs ->
  filter (fun j => key_eqb (client_key c) (key_of j)) (left_join cs ss)
  = joined_with c ss.
Proof.
  induction cs as [|c0 cs IH]; intros Hnd Hin; [contradiction|].
  simpl in Hnd. inversion Hnd as [|? ? Hn Hd]; subst.
  rewrite left_join_cons, filter_app.
  destruct Hin as [->|Hin].
  - rewrite filter_keeps_all.
    + rewrite filter_drops_all; [apply app_nil_r|].
      intros j Hj. apply left_join_fst in Hj.
      apply key_eqb_id. intros Heq. apply Hn. rewrite Heq. apply in_map. exact Hj.
    + intros j Hj. apply joined_with_fst in Hj.
      unfold key_of. rewrite Hj. apply key_eqb_refl.
  - rewrite filter_drops_all.
    + simpl. apply IH; assumption.
    + intros j Hj. apply joined_with_fst in Hj.
      unfold key_of. rewrite Hj. apply key_eqb_id.
      intros Heq. apply Hn. rewrite <- Heq. apply in_map. exact Hin.
Qed.

(** With distinct client ids the grouped query yields one row per
    client, in the order of the clients table. *)
Lemma grouped_rows (cs : list client) :
  NoDup (map c_id cs) ->
  map select_row (group_by (left_join cs ss)) = map (client_row ss) cs.
Proof.
  intros Hnd. unfold group_by.
  rewrite (distinct_keys_left_join cs Hnd), !map_map.
  apply map_ext_in. intros c Hc. cbv beta.
  rewrite (group_of_client cs c Hnd Hc). reflexivity.
Qed.

Lemma Qsum_joined (c : client) (m : list service) :
  (Qsum (map case_active_cost (map (fun s => (c, Some s)) m)) ==
   Qsum (map s_monthly_cost (filter (fun s => s_is_active s =? 1) m)))%Q.
Proof.
  induction m as [|s m IH]; simpl; [reflexivity|].
  unfold case_active_cost at 1. simpl.
  destruct (s_is_active s =? 1); simpl; rewrite IH; ring.
Qed.

Lemma filter_and {A : Type} (f g : A -> bool) (l : list A) :
  filter (fun x => f x && g x) l = filter g (filter f l).
Proof.
  induction l as [|a l IH]; simpl; [reflexivity|].
  destruct (f a); simpl; [destruct (g a)|]; rewrite IH; reflexivity.
Qed.

Lemma client_row_revenue (c : client) :
  (b_monthly_revenue (client_row ss c) ==
   Qsum (map s_monthly_cost
           (filter (fun s => (s_client_id s =? c_id c) && (s_is_active s =? 1)) ss)))%Q.
Proof.
  rewrite filter_and. unfold client_row, joined_with.
  destruct (filter (fun s => s_client_id s =? c_id c) ss) as [|s m].
  - simpl. unfold case_active_cost. simpl. ring.
  - exact (Qsum_joined c (s :: m)).
Qed.

Lemma one_row_per_client (cs : list client) (c : client) :
  NoDup (map c_id cs) -> In c cs ->
  filter (fun r => b_client_id r =? c_id c) (map (client_row ss) cs)
  = [client_row ss c].
Proof.
  induction cs as [|c0 cs IH]; intros Hnd Hin; [contradiction|].
  simpl in Hnd. inversion Hnd as [|? ? Hn Hd]; subst. simpl.
  destruct Hin as [->|Hin].
  - rewrite Z.eqb_refl. f_equal. apply filter_drops_all.
    intros r Hr. apply in_map_iff in Hr. destruct Hr as (c' & <- & Hc'). simpl.
    apply Z.eqb_neq. intros Heq. apply Hn. rewrite <- Heq. apply in_map. exact Hc'.
  - assert (Hne : (c_id c0 =? c_id c) = false).
    { apply Z.eqb_neq. intros Heq. apply Hn. rewrite Heq. apply in_map. exact Hin. }
    rewrite Hne. apply IH; assumption.
Qed.
End Breakdown.

Lemma insert_ordered_perm (r : breakdown_row) (rows : list breakdown_row) :
  Permutation (insert_ordered r rows) (r :: rows).
Proof.
  induction rows as [|r' rows IH]; simpl; [reflexivity|].
  destruct (order_le r r'); [reflexivity|].
  rewrite IH. apply perm_swap.
Qed.

Lemma order_by_perm (rows : list breakdown_row) : Permutation (order_by rows) rows.
Proof.
  induction rows as [|r rows IH]; simpl; [reflexivity|].
  rewrite insert_ordered_perm, IH. reflexivity.
Qed.

Lemma filter_perm {A : Type} (f : A -> bool) (l l' : list A) :
  Permutation l l' -> Permutation (filter f l) (filter f l').
Proof.
  induction 1 as [| x l l' _ IH | x y l | l l' l'' _ IH1 _ IH2]; simpl.
  - reflexivity.
  - destruct (f x); [constructor|]; exact IH.
  - destruct (f x), (f y); try reflexivity. apply perm_swap.
  - etransitivity; eassumption.
Qed.

Lemma breakdown_perm (d : db) :
  NoDup (map c_id (clients d)) ->
  Permutation (client_monthly_revenue_breakdown d)
              (map (client_row (services d)) (clients d)).
Proof.
  intros Hnd. unfold client_monthly_revenue_breakdown.
  rewrite (grouped_rows (services d) (clients d) Hnd). apply order_by_perm.
Qed.

(** C1: in a database that satisfies the schema, the breakdown has
    exactly one row for each Client.  The row carries the Client's id,
    name and status, and its [monthly_revenue] is the sum of
    [monthly_cost] over the Services with that [client_id] and
    [is_active = 1]; it is 0 when the Client has no such Service. *)
Theorem breakdown_has_one_row_per_client (d : db) (c : client) :
  db_ok d -> In c (clients d) ->
  exists r,
    filter (fun r' => b_client_id r' =? c_id c) (client_monthly_revenue_breakdown d)
      = [r] /\
    b_client_id r = c_id c /\ b_name r = c_name c /\ b_status r = c_status c /\
    (b_monthly_revenue r ==
     Qsum (map s_monthly_cost
             (filter (fun s => (s_client_id s =? c_id c) && (s_is_active s =? 1))
                     (services d))))%Q /\
    ((forall s, In s (services d) -> s_client_id s = c_id c -> s_is_active s <> 1) ->
     (b_monthly_revenue r == 0)%Q).
Proof.
  intros Hok Hin. pose proof (ok_client_ids d Hok) as Hnd.
  exists (client_row (services d) c).
  split; [|repeat split].
  - apply Permutation_length_1_inv.
    rewrite <- (one_row_per_client (services d) (clients d) c Hnd Hin).
    apply filter_perm. symmetry. apply breakdown_perm. exact Hnd.
  - apply client_row_revenue.
  - intros Hnone. rewrite client_row_revenue.
    rewrite filter_drops_all; [reflexivity|].
    intros s Hs.
    destruct (s_client_id s =? c_id c) eqn:Ec; [|reflexivity].
    destruct (s_is_active s =? 1) eqn:Ea; [|reflexivity].
    apply Z.eqb_eq in Ec, Ea. exfalso. exact (Hnone s Hs Ec Ea).
Qed.

Lemma two_clients_db_ok : db_ok two_clients_db.
Proof.
  constructor; simpl.
  - repeat constructor; simpl; intuition lia.
  - repeat constructor; simpl; intuition lia.
  - rows_by ltac:(reflexivity).
  - rows_by ltac:(unfold Qle; simpl; lia).
  - rows_by ltac:(simpl; auto).
  - rows_by ltac:(simpl; auto).
Defined.

Lemma breakdown_has_one_row_per_client_witness :
  exists r,
    filter (fun r' => b_client_id r' =? 1) (client_monthly_revenue_breakdown two_clients_db)
      = [r] /\
    b_client_id r = 1 /\ b_name r = "Acme" /\ b_status r = "Active" /\
    (b_monthly_revenue r == 100)%Q /\
    ((forall s, In s (services two_clients_db) -> s_client_id s = 1 -> s_is_active s <> 1) ->
     (b_monthly_revenue r == 0)%Q).
Proof.
  apply (breakdown_has_one_row_per_client two_clients_db acme).
  - exact two_clients_db_ok.
  - simpl. left. reflexivity.
Defined.

Lemma breakdown_statuses (d : db) :
  db_ok d ->
  Forall (fun r => status_in_enum (b_status r) = true)
         (client_monthly_revenue_breakdown d).
Proof.
  intros Hok.
  eapply Permutation_Forall.
  - symmetry. apply breakdown_perm. exact (ok_client_ids d Hok).
  - apply Forall_forall. intros r Hr. apply in_map_iff in Hr.
    destruct Hr as (c & <- & Hc). simpl.
    pose proof (ok_status d Hok) as Hst. rewrite Forall_forall in Hst.
    apply Hst. exact Hc.
Qed.

(** C10, as stated, fails on the amounts the code adds.  With three
    clients, Active, Prospect and Inactive, holding one active service
    of 1.1, 2.2 and 3.3, the breakdown lists the revenues 1.1, 3.3, 2.2
    (the Inactive row comes before the Prospect one), and the totals are
    1.1, 2.2 and 3.3.  In binary64 1.1 + 2.2 + 3.3 is 6.5999999999999996
    and the sum of the column is 6.6000000000000005, whichever way
    SQLite adds inside a group. *)
Lemma binary64_totals_do_not_add_up :
  map Binary64.b_monthly_revenue
      (Binary64.client_monthly_revenue_breakdown Binary64.sqlite_sum_plain
         Binary64.three_statuses)
    = [Binary64.cost_1_1; Binary64.cost_3_3; Binary64.cost_2_2] /\
  map Binary64.b_monthly_revenue
      (Binary64.client_monthly_revenue_breakdown Binary64.sqlite_sum_kbn
         Binary64.three_statuses)
    = [Binary64.cost_1_1; Binary64.cost_3_3; Binary64.cost_2_2] /\
  Binary64.totals_for_dashboard Binary64.sqlite_sum_plain Binary64.three_statuses
    = (Binary64.cost_1_1, Binary64.cost_2_2,
       (Binary64.cost_1_1 + Binary64.cost_2_2)%float, Binary64.cost_3_3) /\
  Binary64.totals_for_dashboard Binary64.sqlite_sum_kbn Binary64.three_statuses
    = (Binary64.cost_1_1, Binary64.cost_2_2,
       (Binary64.cost_1_1 + Binary64.cost_2_2)%float, Binary64.cost_3_3) /\
  (Binary64.cost_1_1 + Binary64.cost_2_2 + Binary64.cost_3_3 <?
   Binary64.series_sum [Binary64.cost_1_1; Binary64.cost_3_3; Binary64.cost_2_2])%float
    = true /\
  Binary64.totals_add_up Binary64.sqlite_sum_plain Binary64.three_statuses = false /\
  Binary64.totals_add_up Binary64.sqlite_sum_kbn Binary64.three_statuses = false.
Proof.
  repeat split; vm_compute; reflexivity.
Qed.

Lemma partition_by_status (df : list breakdown_row) :
  Forall (fun r => status_in_enum (b_status r) = true) df ->
  Permutation
    (filter (fun r => (b_status r =? "Active")%string) df
     ++ filter (fun r => (b_status r =? "Prospect")%string) df
     ++ filter (fun r => (b_status r =? "Inactive")%string) df)%list
    df.
Proof.
  induction 1 as [|r df Hr _ IH]; [reflexivity|].
  apply status_in_enum_iff in Hr. cbn [filter].
  destruct Hr as [Hr|[Hr|Hr]]; rewrite Hr; cbn.
  - apply perm_skip. exact IH.
  - etransitivity; [|apply perm_skip; exact IH]. symmetry.
    etransitivity; [apply Permutation_middle|].
    apply Permutation_app_head. apply Permutation_middle.
  - etransitivity; [symmetry; apply Permutation_middle|].
    apply perm_skip. exact IH.
Qed.

(** C10, amended: in a database that satisfies the schema every row of
    the breakdown has status Active, Prospect or Inactive, and the three
    selections that [totals_for_dashboard] sums (active, prospect,
    inactive) together are a rearrangement of the breakdown: every row is
    in exactly one of them.  Nothing is said of the rounded sums. *)
Theorem breakdown_rows_are_partitioned_by_status (d : db) :
  db_ok d ->
  let df := client_monthly_revenue_breakdown d in
  let selection st := filter (fun r => (b_status r =? st)%string) df in
  Forall (fun r => b_status r = "Active" \/ b_status r = "Prospect"
                   \/ b_status r = "Inactive") df /\
  Permutation (selection "Active" ++ selection "Prospect" ++ selection "Inactive")%list
              df /\
  totals_for_dashboard d
    = (Qsum (map b_monthly_revenue (selection "Active")),
       Qsum (map b_monthly_revenue (selection "Prospect")),
       (Qsum (map b_monthly_revenue (selection "Active"))
        + Qsum (map b_monthly_revenue (selection "Prospect")))%Q,
       Qsum (map b_monthly_revenue (selection "Inactive"))).
Proof.
  intros Hok. cbv zeta. pose proof (breakdown_statuses d Hok) as Hst.
  split; [|split].
  - eapply Forall_impl; [|exact Hst]. intros r Hr.
    apply status_in_enum_iff in Hr. tauto.
  - apply partition_by_status. exact Hst.
  - reflexivity.
Qed.

Lemma breakdown_rows_are_partitioned_by_status_witness :
  map b_client_id (client_monthly_revenue_breakdown three_clients_db) = [1; 3; 2] /\
  Permutation
    (filter (fun r => (b_status r =? "Active")%string)
            (client_monthly_revenue_breakdown three_clients_db)
     ++ filter (fun r => (b_status r =? "Prospect")%string)
               (client_monthly_revenue_breakdown three_clients_db)
     ++ filter (fun r => (b_status r =? "Inactive")%string)
               (client_monthly_revenue_breakdown three_clients_db))%list
    (client_monthly_revenue_breakdown three_clients_db).
Proof.
  split; [reflexivity|].
  apply (breakdown_rows_are_partitioned_by_status three_clients_db).
  constructor; simpl.
  - repeat constructor; simpl; intuition lia.
  - repeat constructor; simpl; intuition lia.
  - rows_by ltac:(reflexivity).
  - rows_by ltac:(unfold Qle; simpl; lia).
  - rows_by ltac:(simpl; auto).
  - rows_by ltac:(simpl; auto).
Defined.


(** * Further properties *)

(** ** Trimming *)

Lemma lstrip_cases (s : string) :
  lstrip s = "" \/ exists a t, lstrip s = String a t /\ is_space a = false.
Proof.
  induction s as [|a t IH]; simpl; [left; reflexivity|].
  destruct (is_space a) eqn:E; [exact IH|].
  right. exists a, t. split; [reflexivity | exact E].
Qed.

Lemma lstrip_empty_iff (s : string) : lstrip s = "" <-> all_space s = true.
Proof.
  induction s as [|a t IH]; simpl; [tauto|].
  destruct (is_space a); simpl; [exact IH|].
  split; discriminate.
Qed.

Lemma rstrip_empty_iff (s : string) : rstrip s = "" <-> all_space s = true.
Proof.
  induction s as [|a t IH]; simpl; [tauto|].
  destruct (rstrip t) as [|b u] eqn:E.
  - destruct (is_space a); simpl.
    + split; [intros _; apply IH; reflexivity | reflexivity].
    + split; discriminate.
  - split; [discriminate|]. intros H. apply andb_true_iff in H.
    destruct H as [_ H]. apply IH in H. discriminate.
Qed.

Lemma rstrip_head (a : ascii) (t : string) :
  is_space a = false -> rstrip (String a t) = String a (rstrip t).
Proof.
  intros H. simpl. destruct (rstrip t); [rewrite H|]; reflexivity.
Qed.

Lemma rstrip_idempotent (s : string) : rstrip (rstrip s) = rstrip s.
Proof.
  induction s as [|a t IH]; [reflexivity|].
  simpl. destruct (rstrip t) as [|b u] eqn:E.
  - destruct (is_space a) eqn:Ea; [reflexivity|].
    simpl. rewrite Ea. reflexivity.
  - change (rstrip (String a (String b u))) with
      (match rstrip (String b u) with
       | EmptyString => if is_space a then EmptyString else String a EmptyString
       | t' => String a t'
       end).
    rewrite IH. reflexivity.
Qed.

Lemma strip_trimmed (s : string) : trimmed (strip s).
Proof.
  unfold trimmed, strip. split; [|apply rstrip_idempotent].
  destruct (lstrip_cases s) as [->|(a & t & -> & Ha)]; [reflexivity|].
  rewrite rstrip_head by exact Ha. simpl. rewrite Ha. reflexivity.
Qed.

Lemma trimmed_strip (s : string) : trimmed s -> strip s = s.
Proof.
  intros [Hl Hr]. unfold strip. rewrite Hl. exact Hr.
Qed.

Lemma strip_empty_iff (s : string) : strip s = "" <-> all_space s = true.
Proof.
  unfold strip. rewrite rstrip_empty_iff.
  destruct (lstrip_cases s) as [E|(a & t & E & Ha)].
  - rewrite E. simpl. apply lstrip_empty_iff in E. rewrite E. tauto.
  - rewrite E. simpl. rewrite Ha. simpl.
    split; [discriminate|]. intros H. apply lstrip_empty_iff in H. congruence.
Qed.

(** [strip] is idempotent, and its result neither starts nor ends
    with whitespace: both [lstrip] and [rstrip] leave it unchanged.  It
    is empty exactly for the strings made of whitespace only. *)
Lemma strip_is_a_normal_form (s : string) :
  strip (strip s) = strip s /\
  lstrip (strip s) = strip s /\
  rstrip (strip s) = strip s /\
  (strip s = "" <-> all_space s = true).
Proof.
  pose proof (strip_trimmed s) as Ht.
  split; [apply trimmed_strip; exact Ht|].
  destruct Ht as [Hl Hr]. split; [exact Hl|]. split; [exact Hr|].
  apply strip_empty_iff.
Qed.

(** ** Stored names are trimmed *)

Lemma Forall_snoc {A : Type} (P : A -> Prop) (l : list A) (x : A) :
  Forall P l -> P x -> Forall P (l ++ [x]).
Proof.
  intros Hl Hx. apply Forall_app. split; [exact Hl | constructor; [exact Hx | constructor]].
Qed.

Lemma Forall_replaced {A : Type} (P : A -> Prop) (w : A -> bool) (f : A -> A)
    (l : list A) :
  (forall a, P (f a)) -> Forall P l -> Forall P (map (replaced w f) l).
Proof.
  intros Hf Hl. apply Forall_forall. intros x Hx.
  apply in_map_iff in Hx. destruct Hx as (a & <- & Ha).
  unfold replaced. destruct (w a); [apply Hf|].
  rewrite Forall_forall in Hl. apply Hl. exact Ha.
Qed.

Lemma exec_sql_keeps (P : db -> Prop) (s : statement) (d : db) :
  (forall d', s d = Ok d' -> P d') -> P d -> P (fst (exec_sql s d)).
Proof.
  intros Hs Hd. rewrite exec_sql_eq.
  destruct (s d) as [d'|e]; simpl; [apply Hs; reflexivity | exact Hd].
Qed.

Lemma run_rows_keeps (P : db -> Prop) (rows : list edited_row) (d d' : db) :
  (forall r d0 d1, P d0 -> row_statement r d0 = Ok d1 -> P d1) ->
  P d -> run_rows rows d = Ok d' -> P d'.
Proof.
  intros Hstep. revert d; induction rows as [|r rows IH]; simpl; intros d Hd H.
  - inversion H; subst; exact Hd.
  - destruct (row_statement r d) as [d1|e] eqn:E; [|discriminate].
    apply (IH d1); [eapply Hstep; eassumption | exact H].
Qed.

Lemma update_services_bulk_keeps (P : db -> Prop) (edited : list edited_row) (d : db) :
  (forall r d0 d1, P d0 -> row_statement r d0 = Ok d1 -> P d1) ->
  P d -> P (fst (update_services_bulk edited d)).
Proof.
  intros Hstep Hd. rewrite update_services_bulk_eq.
  destruct (run_rows edited d) as [d'|e] eqn:E; simpl; [|exact Hd].
  eapply run_rows_keeps; eassumption.
Qed.

Lemma update_client_rows (name status notes : string) (id : Z) (d d' : db) :
  update_client name status notes id d = Ok d' ->
  d' = mkDb (map (replaced (fun c => c_id c =? id)
                    (fun c => mkClient (c_id c) name status (Some notes)
                                       (c_created_at c)))
                 (clients d))
            (services d) (clients_seq d) (services_seq d).
Proof.
  unfold update_client.
  destruct (sql_update _ _ _ _) as [rows|e] eqn:E; [|discriminate].
  intros H; inversion H; subst; clear H.
  apply sql_update_ok in E. destruct E as [-> _]. reflexivity.
Qed.

Lemma row_statement_rows (r : edited_row) (d d' : db) :
  row_statement r d = Ok d' ->
  d' = mkDb (clients d)
            (map (replaced (fun s => s_id s =? e_id r)
                    (fun s => mkService (s_id s) (s_client_id s)
                                (strip (e_service_name r)) (e_monthly_cost r)
                                (if e_is_active r then 1 else 0) (s_created_at s)))
                 (services d))
            (clients_seq d) (services_seq d).
Proof.
  unfold row_statement, update_service.
  destruct (sql_update _ _ _ _) as [rows|e] eqn:E; [|discriminate].
  intros H; inversion H; subst; clear H.
  apply sql_update_ok in E. destruct E as [-> _]. reflexivity.
Qed.

Lemma reachable_names_trimmed (d : db) : reachable d -> names_trimmed d.
Proof.
  induction 1 as [| d [id|] name status notes now _ IH | d id _ IH
                  | d cid sname cost active now _ IH | d edited _ IH | d id _ IH].
  - split; constructor.
  - apply (exec_sql_keeps names_trimmed); [|exact IH]. intros d' E.
    apply update_client_rows in E. subst d'. destruct IH as [Hc Hs].
    split; simpl; [|exact Hs].
    apply Forall_replaced; [|exact Hc].
    intros c. simpl. split; apply strip_trimmed.
  - apply (exec_sql_keeps names_trimmed); [|exact IH]. intros d'. unfold insert_client.
    destruct (client_checks _); [discriminate|].
    intros E; inversion E; subst; clear E. destruct IH as [Hc Hs].
    split; simpl; [|exact Hs].
    apply Forall_snoc; [exact Hc|]. simpl. split; apply strip_trimmed.
  - apply (exec_sql_keeps names_trimmed); [|exact IH]. intros d'. unfold delete_client_stmt, sql_delete.
    intros E; inversion E; subst; clear E. destruct IH as [Hc Hs].
    split; simpl; apply Forall_filter; assumption.
  - apply (exec_sql_keeps names_trimmed); [|exact IH]. intros d'. unfold insert_service.
    destruct (service_checks _); [discriminate|].
    destruct (existsb _ _); [|discriminate].
    intros E; inversion E; subst; clear E. destruct IH as [Hc Hs].
    split; simpl; [exact Hc|].
    apply Forall_snoc; [exact Hs|]. simpl. apply strip_trimmed.
  - apply (update_services_bulk_keeps names_trimmed); [|exact IH].
    intros r d0 d1 [Hc Hs] E. apply row_statement_rows in E. subst d1.
    split; simpl; [exact Hc|].
    apply Forall_replaced; [|exact Hs]. intros s. simpl. apply strip_trimmed.
  - apply (exec_sql_keeps names_trimmed); [|exact IH]. intros d'. unfold delete_service_stmt, sql_delete.
    intros E; inversion E; subst; clear E. destruct IH as [Hc Hs].
    split; simpl; [exact Hc | apply Forall_filter; exact Hs].
Qed.

(** X1: in every reachable state the name and the notes of each Client
    and the name of each Service are stored trimmed: stripping leading
    or trailing whitespace from them changes nothing. *)
Theorem stored_names_are_trimmed (d : db) :
  reachable d ->
  (forall c, In c (clients d) ->
     strip (c_name c) = c_name c /\ lstrip (c_name c) = c_name c /\
     rstrip (c_name c) = c_name c /\
     forall n, c_notes c = Some n -> strip n = n) /\
  (forall s, In s (services d) ->
     strip (s_service_name s) = s_service_name s /\
     lstrip (s_service_name s) = s_service_name s /\
     rstrip (s_service_name s) = s_service_name s).
Proof.
  intros Hr. destruct (reachable_names_trimmed d Hr) as [Hc Hs].
  rewrite Forall_forall in Hc, Hs. split.
  - intros c Hin. destruct (Hc c Hin) as [Hn Hnotes].
    split; [apply trimmed_strip; exact Hn|].
    destruct Hn as [Hl Hrs]. split; [exact Hl|]. split; [exact Hrs|].
    intros n En. rewrite En in Hnotes. apply trimmed_strip. exact Hnotes.
  - intros s Hin. pose proof (Hs s Hin) as Hn.
    split; [apply trimmed_strip; exact Hn|]. exact Hn.
Qed.

Lemma stored_names_are_trimmed_witness :
  clients padded_db
    = [mkClient 1 "Initech" "Prospect" (Some "call back") "2024-04-01T00:00:00"] /\
  services padded_db = [mkService 1 1 "SEO" 500 1 "2024-04-02T00:00:00"] /\
  (forall c, In c (clients padded_db) -> strip (c_name c) = c_name c) /\
  (forall s, In s (services padded_db) -> strip (s_service_name s) = s_service_name s).
Proof.
  split; [reflexivity|]. split; [reflexivity|].
  assert (Hr : reachable padded_db) by (unfold padded_db; repeat constructor).
  destruct (stored_names_are_trimmed padded_db Hr) as [Hc Hs].
  split.
  - intros c Hin. exact (proj1 (Hc c Hin)).
  - intros s Hin. exact (proj1 (Hs s Hin)).
Defined.

(** ** Referential integrity *)

(** X2: in every reachable state the ids of each table are pairwise
    distinct, every Service references a stored Client, and every
    [is_active] is 0 or 1. *)
Theorem reachable_referential_integrity (d : db) :
  reachable d ->
  NoDup (map c_id (clients d)) /\
  NoDup (map s_id (services d)) /\
  (forall s, In s (services d) ->
     exists c, In c (clients d) /\ c_id c = s_client_id s) /\
  (forall s, In s (services d) -> s_is_active s = 0 \/ s_is_active s = 1).
Proof.
  intros Hr. destruct (reachable_db_ok d Hr) as [H1 H2 _ _ H5 H6].
  rewrite Forall_forall in H5, H6.
  repeat split; try assumption.
  intros s Hs. specialize (H6 s Hs). apply in_map_iff in H6.
  destruct H6 as (c & Hid & Hc). exists c. split; assumption.
Qed.

Lemma reachable_referential_integrity_witness :
  NoDup (map c_id (clients acme_db)) /\
  NoDup (map s_id (services acme_db)) /\
  (forall s, In s (services acme_db) ->
     exists c, In c (clients acme_db) /\ c_id c = s_client_id s) /\
  (forall s, In s (services acme_db) -> s_is_active s = 0 \/ s_is_active s = 1).
Proof.
  apply (reachable_referential_integrity acme_db).
  exact acme_db_reachable.
Defined.

(** ** Ids are never reused *)

Lemma next_rowid_above_seq (ids : list Z) (seq : Z) : seq < next_rowid ids seq.
Proof. unfold next_rowid. lia. Qed.


Lemma replaced_keeps {A B : Type} (g : A -> B) (w : A -> bool) (f : A -> A) (a : A) :
  (forall x, g (f x) = g x) -> g (replaced w f a) = g a.
Proof.
  intros Hf. unfold replaced. destruct (w a); [apply Hf | reflexivity].
Qed.






(** ** Inserting rows *)

(** X4: [upsert_client] without an id and with a status of the
    enumeration returns normally and appends exactly one Client, with
    the trimmed name and notes, the given status and creation time, and
    an id larger than every id in the table and than the counter, which
    becomes that id.  The rows already stored, in both tables, are
    untouched. *)
Theorem upsert_client_inserts_one_row
    (d : db) (name status notes now : string) :
  status = "Active" \/ status = "Inactive" \/ status = "Prospect" ->
  exists id,
    upsert_client None name status notes now d
      = (mkDb (clients d ++ [mkClient id (strip name) status (Some (strip notes)) now])
              (services d) id (services_seq d), None) /\
    clients_seq d < id /\
    (forall c, In c (clients d) -> c_id c < id).
Proof.
  intros Hst. apply status_in_enum_iff in Hst.
  exists (next_rowid (map c_id (clients d)) (clients_seq d)).
  split; [|split].
  - unfold upsert_client. rewrite exec_sql_eq. unfold insert_client, client_checks.
    simpl. rewrite Hst. reflexivity.
  - apply next_rowid_above_seq.
  - intros c Hc. pose proof (max_rowid_bounds (map c_id (clients d)) (c_id c)
                               (in_map c_id _ _ Hc)).
    unfold next_rowid. lia.
Qed.

Lemma upsert_client_inserts_one_row_witness :
  exists id,
    upsert_client None " Beta " "Prospect" "" "2024-02-01T00:00:00" acme_db
      = (mkDb [acme; mkClient id "Beta" "Prospect" (Some "") "2024-02-01T00:00:00"]
              [hosting; old_plan] id 2, None) /\
    clients_seq acme_db < id /\
    (forall c, In c (clients acme_db) -> c_id c < id).
Proof.
  apply (upsert_client_inserts_one_row acme_db " Beta " "Prospect" ""
           "2024-02-01T00:00:00").
  right; right; reflexivity.
Defined.

Lemma service_checks_accepts (s : service) :
  (0 <= s_monthly_cost s)%Q -> s_is_active s = 0 \/ s_is_active s = 1 ->
  service_checks s = None.
Proof.
  intros Hc Ha. unfold service_checks.
  apply Qle_bool_iff in Hc. rewrite Hc. simpl.
  destruct Ha as [-> | ->]; reflexivity.
Qed.

Lemma active_flag (b : bool) : (if b then 1 else 0) = 0 \/ (if b then 1 else 0) = 1.
Proof. destruct b; auto. Qed.

Lemma existsb_id (cs : list client) (id : Z) :
  existsb (fun c => c_id c =? id) cs = true <-> In id (map c_id cs).
Proof.
  rewrite existsb_exists, in_map_iff.
  split; intros (c & H1 & H2).
  - exists c. apply Z.eqb_eq in H2. tauto.
  - exists c. split; [exact H2 | apply Z.eqb_eq; exact H1].
Qed.

(** X5: [add_service] for a client id that is not in the clients table
    is rejected by the foreign key when the cost is not negative: the
    call raises and the database is left as it was. *)
Theorem add_service_rejects_unknown_client
    (d : db) (client_id : Z) (service_name : string) (monthly_cost : Q)
    (is_active : bool) (now : string) :
  (0 <= monthly_cost)%Q ->
  ~ In client_id (map c_id (clients d)) ->
  add_service client_id service_name monthly_cost is_active now d
    = (d, Some (IntegrityError ForeignKey)).
Proof.
  intros Hc Hn. unfold add_service. rewrite exec_sql_eq. unfold insert_service.
  rewrite service_checks_accepts; [| exact Hc | apply active_flag].
  destruct (existsb _ (clients d)) eqn:E; [|reflexivity].
  apply existsb_id in E. contradiction.
Qed.

Lemma add_service_rejects_unknown_client_witness :
  add_service 7 "SEO" 500 true "2024-05-01T00:00:00" acme_db
    = (acme_db, Some (IntegrityError ForeignKey)).
Proof.
  apply add_service_rejects_unknown_client.
  - unfold Qle; simpl; lia.
  - simpl. intros [H|[]]. lia.
Defined.

(** X6: [add_service] for a stored Client and a cost that is not
    negative returns normally and appends exactly one Service: trimmed
    name, the cost, [is_active] 1 or 0 for true or false, the creation
    time, and an id larger than every id of the table and than the
    counter.  Nothing else changes. *)
Theorem add_service_appends_one_row
    (d : db) (client_id : Z) (service_name : string) (monthly_cost : Q)
    (is_active : bool) (now : string) :
  (0 <= monthly_cost)%Q ->
  In client_id (map c_id (clients d)) ->
  exists id,
    add_service client_id service_name monthly_cost is_active now d
      = (mkDb (clients d)
              (services d ++ [mkService id client_id (strip service_name) monthly_cost
                                (if is_active then 1 else 0) now])
              (clients_seq d) id, None) /\
    services_seq d < id /\
    (forall s, In s (services d) -> s_id s < id).
Proof.
  intros Hc Hin.
  exists (next_rowid (map s_id (services d)) (services_seq d)).
  split; [|split].
  - unfold add_service. rewrite exec_sql_eq. unfold insert_service.
    rewrite service_checks_accepts; [| exact Hc | apply active_flag].
    apply existsb_id in Hin. rewrite Hin. reflexivity.
  - apply next_rowid_above_seq.
  - intros s Hs. pose proof (max_rowid_bounds (map s_id (services d)) (s_id s)
                               (in_map s_id _ _ Hs)).
    unfold next_rowid. lia.
Qed.

Lemma add_service_appends_one_row_witness :
  exists id,
    add_service 1 "  SEO " (1001 # 2) false "2024-05-01T00:00:00" acme_db
      = (mkDb [acme]
              [hosting; old_plan;
               mkService id 1 "SEO" (1001 # 2) 0 "2024-05-01T00:00:00"]
              1 id, None) /\
    services_seq acme_db < id /\
    (forall s, In s (services acme_db) -> s_id s < id).
Proof.
  apply (add_service_appends_one_row acme_db 1 "  SEO " (1001 # 2) false
           "2024-05-01T00:00:00").
  - unfold Qle; simpl; lia.
  - simpl. left. reflexivity.
Defined.

(** ** Deleting a service *)

(** X7: [delete_service] returns normally, leaves the clients table and
    both counters alone, and keeps exactly the Services with another id,
    in their order.  Where ids are distinct and the id is stored, the
    table shrinks by one row. *)
Theorem delete_service_removes_that_row (d : db) (service_id : Z) :
  exists d',
    delete_service service_id d = (d', None) /\
    clients d' = clients d /\
    clients_seq d' = clients_seq d /\ services_seq d' = services_seq d /\
    services d' = filter (fun s => negb (s_id s =? service_id)) (services d) /\
    (forall s, In s (services d') <-> In s (services d) /\ s_id s <> service_id) /\
    (NoDup (map s_id (services d)) -> In service_id (map s_id (services d)) ->
     S (List.length (services d')) = List.length (services d)).
Proof.
  unfold delete_service. rewrite exec_sql_eq. unfold delete_service_stmt, sql_delete.
  eexists. split; [reflexivity|]. simpl.
  repeat split; try reflexivity.
  - apply filter_In in H. tauto.
  - apply filter_In in H. destruct H as [_ H].
    apply negb_true_iff, Z.eqb_neq in H. exact H.
  - intros [H1 H2]. apply filter_In. split; [exact H1|].
    apply negb_true_iff, Z.eqb_neq. exact H2.
  - induction (services d) as [|s ss IH]; simpl; intros Hnd Hin; [contradiction|].
    inversion Hnd as [|? ? Hn Hd]; subst.
    destruct (s_id s =? service_id) eqn:E; simpl.
    + apply Z.eqb_eq in E. f_equal. f_equal. apply filter_keeps_all.
      intros x Hx. apply negb_true_iff, Z.eqb_neq. intros Heq.
      apply Hn. rewrite E, <- Heq. apply in_map. exact Hx.
    + f_equal. apply IH; [exact Hd|].
      destruct Hin as [Hin|Hin]; [|exact Hin].
      apply Z.eqb_neq in E. contradiction.
Qed.

Lemma delete_service_removes_that_row_witness :
  exists d',
    delete_service 1 acme_db = (d', None) /\
    clients d' = [acme] /\
    clients_seq d' = 1 /\ services_seq d' = 2 /\
    services d' = [old_plan] /\
    (forall s, In s (services d') <-> In s (services acme_db) /\ s_id s <> 1) /\
    (NoDup (map s_id (services acme_db)) -> In 1 (map s_id (services acme_db)) ->
     S (List.length (services d')) = List.length (services acme_db)).
Proof.
  exact (delete_service_removes_that_row acme_db 1).
Defined.

(** ** The forms of the Clients page *)

Lemma truthy_strip (s : string) : truthy (strip s) = negb (all_space s).
Proof.
  destruct (all_space s) eqn:E.
  - apply strip_empty_iff in E. rewrite E. reflexivity.
  - destruct (strip s) eqn:Es; [|reflexivity].
    apply strip_empty_iff in Es. congruence.
Qed.

(** X8: the client form rejects a name exactly when it is made of
    whitespace only.  With any other name and a status of the select box
    the handler never shows an exception: it reports "Saved." and the
    database is the one [upsert_client] produced, also when the selected
    id is no longer stored, in which case nothing changed. *)
Theorem client_form_outcome
    (selected_id : option Z) (name status notes now : string) (d : db) :
  status = "Active" \/ status = "Inactive" \/ status = "Prospect" ->
  (all_space name = true ->
   client_form_submit selected_id name status notes now d
     = (d, StError "Client name can't be blank.")) /\
  (all_space name = false ->
   client_form_submit selected_id name status notes now d
     = (fst (upsert_client selected_id name status notes now d), StSuccess "Saved.")) /\
  (all_space name = false ->
   forall id, selected_id = Some id -> ~ In id (map c_id (clients d)) ->
   client_form_submit selected_id name status notes now d = (d, StSuccess "Saved.")).
Proof.
  intros Hst. apply status_in_enum_iff in Hst.
  assert (Hok : snd (upsert_client selected_id name status notes now d) = None).
  { destruct selected_id as [id|]; unfold upsert_client; rewrite exec_sql_eq.
    - destruct (update_client _ _ _ _ d) as [d'|e] eqn:E; [reflexivity|].
      unfold update_client in E.
      destruct (sql_update _ _ _ _) as [rows|e'] eqn:E'; [discriminate|].
      apply sql_update_err in E'. destruct E' as (c & k & _ & _ & Hk & _).
      unfold client_checks in Hk. simpl in Hk. rewrite Hst in Hk. discriminate.
    - unfold insert_client, client_checks. simpl. rewrite Hst. reflexivity. }
  assert (Hsave : all_space name = false ->
            client_form_submit selected_id name status notes now d
            = (fst (upsert_client selected_id name status notes now d),
               StSuccess "Saved.")).
  { intros Hn. unfold client_form_submit. rewrite truthy_strip, Hn. simpl.
    destruct (upsert_client selected_id name status notes now d) as [d' [e|]];
      simpl in *; [discriminate | reflexivity]. }
  split; [|split].
  - intros Hb. unfold client_form_submit. rewrite truthy_strip, Hb. reflexivity.
  - exact Hsave.
  - intros Hn id -> Hmiss. rewrite (Hsave Hn). f_equal.
    unfold upsert_client. rewrite exec_sql_eq. unfold update_client.
    rewrite sql_update_no_match by (apply id_not_selected; exact Hmiss).
    rewrite db_eta. reflexivity.
Qed.

Lemma client_form_outcome_witness :
  client_form_submit (Some 9) "Zed" "Active" "" "2024-05-01T00:00:00" acme_db
    = (acme_db, StSuccess "Saved.").
Proof.
  apply (proj2 (proj2 (client_form_outcome (Some 9) "Zed" "Active" ""
                         "2024-05-01T00:00:00" acme_db (or_introl eq_refl)))
           eq_refl 9 eq_refl).
  simpl. intros [H|[]]. lia.
Defined.

Lemma add_service_eq (d : db) (client_id : Z) (service_name : string)
    (monthly_cost : Q) (is_active : bool) (now : string) :
  (0 <= monthly_cost)%Q ->
  In client_id (map c_id (clients d)) ->
  add_service client_id service_name monthly_cost is_active now d
  = (mkDb (clients d)
          (services d ++ [mkService (next_rowid (map s_id (services d)) (services_seq d))
                            client_id (strip service_name) monthly_cost
                            (if is_active then 1 else 0) now])%list
          (clients_seq d) (next_rowid (map s_id (services d)) (services_seq d)), None).
Proof.
  intros Hc Hin. unfold add_service. rewrite exec_sql_eq. unfold insert_service.
  rewrite service_checks_accepts; [| exact Hc | apply active_flag].
  apply existsb_id in Hin. rewrite Hin. reflexivity.
Qed.

(** X9: the add-service form rejects a name made of whitespace only
    without calling [add_service].  With any other name, a cost that is
    not negative and a managed client that is stored, it never shows an
    exception: it reports "Service added." and the services table has
    one more row, for that client. *)
Theorem add_service_form_outcome
    (manage_id : Z) (sname : string) (scost : Q) (sactive : bool)
    (now : string) (d : db) :
  (all_space sname = true ->
   add_service_form_submit manage_id sname scost sactive now d
     = (d, StError "Service name can't be blank.")) /\
  (all_space sname = false -> (0 <= scost)%Q ->
   In manage_id (map c_id (clients d)) ->
   exists d' row,
     add_service_form_submit manage_id sname scost sactive now d
       = (d', StSuccess "Service added.") /\
     clients d' = clients d /\
     services d' = (services d ++ [row])%list /\
     s_client_id row = manage_id /\ s_service_name row = strip sname /\
     s_monthly_cost row = scost /\ s_is_active row = (if sactive then 1 else 0) /\
     s_service_name row <> "").
Proof.
  split.
  - intros Hb. unfold add_service_form_submit. rewrite truthy_strip, Hb. reflexivity.
  - intros Hn Hc Hin. unfold add_service_form_submit.
    rewrite truthy_strip, Hn. simpl.
    rewrite (add_service_eq d manage_id sname scost sactive now Hc Hin).
    do 2 eexists. split; [reflexivity|]. simpl. repeat split.
    intros Hempty. apply strip_empty_iff in Hempty. congruence.
Qed.

Lemma add_service_form_outcome_witness :
  add_service_form_submit 1 " " 10 true "2024-05-01T00:00:00" acme_db
    = (acme_db, StError "Service name can't be blank.") /\
  exists d' row,
    add_service_form_submit 1 " SEO" 10 true "2024-05-01T00:00:00" acme_db
      = (d', StSuccess "Service added.") /\
    clients d' = clients acme_db /\
    services d' = (services acme_db ++ [row])%list /\
    s_client_id row = 1 /\ s_service_name row = "SEO" /\
    s_monthly_cost row = 10%Q /\ s_is_active row = 1 /\
    s_service_name row <> "".
Proof.
  split.
  - apply (proj1 (add_service_form_outcome 1 " " 10 true "2024-05-01T00:00:00" acme_db)).
    reflexivity.
  - apply (proj2 (add_service_form_outcome 1 " SEO" 10 true "2024-05-01T00:00:00"
                    acme_db)).
    + reflexivity.
    + unfold Qle; simpl; lia.
    + simpl. left. reflexivity.
Defined.

(** ** The breakdown is ordered *)

Lemma ascii_compare_lt_trans (a b c : ascii) :
  Ascii.compare a b = Lt -> Ascii.compare b c = Lt -> Ascii.compare a c = Lt.
Proof.
  unfold Ascii.compare. rewrite !N.compare_lt_iff. lia.
Qed.

Lemma string_compare_refl (s : string) : String.compare s s = Eq.
Proof.
  induction s as [|a t IH]; simpl; [reflexivity|].
  unfold Ascii.compare. rewrite N.compare_refl. exact IH.
Qed.

Lemma string_compare_lt_trans (s1 s2 s3 : string) :
  String.compare s1 s2 = Lt -> String.compare s2 s3 = Lt -> String.compare s1 s3 = Lt.
Proof.
  revert s2 s3; induction s1 as [|a t1 IH]; intros [|b t2] [|c t3]; simpl;
    try congruence.
  destruct (Ascii.compare a b) eqn:Eab; try discriminate.
  - apply Ascii.compare_eq_iff in Eab. subst b.
    destruct (Ascii.compare a c); try congruence. apply IH.
  - intros _. destruct (Ascii.compare b c) eqn:Ebc; try discriminate.
    + apply Ascii.compare_eq_iff in Ebc. subst c. rewrite Eab. reflexivity.
    + rewrite (ascii_compare_lt_trans a b c Eab Ebc). reflexivity.
Qed.

Lemma string_leb_trans (s1 s2 s3 : string) :
  String.leb s1 s2 = true -> String.leb s2 s3 = true -> String.leb s1 s3 = true.
Proof.
  unfold String.leb.
  destruct (String.compare s1 s2) eqn:E12; try discriminate;
    destruct (String.compare s2 s3) eqn:E23; try discriminate; intros _ _.
  - apply String.compare_eq_iff in E12, E23. subst. rewrite string_compare_refl.
    reflexivity.
  - apply String.compare_eq_iff in E12. subst. rewrite E23. reflexivity.
  - apply String.compare_eq_iff in E23. subst. rewrite E12. reflexivity.
  - rewrite (string_compare_lt_trans s1 s2 s3 E12 E23). reflexivity.
Qed.

Lemma order_le_total (r1 r2 : breakdown_row) :
  order_le r1 r2 = false -> order_le r2 r1 = true.
Proof.
  unfold order_le. rewrite (String.compare_antisym (b_status r1) (b_status r2)).
  destruct (String.compare (b_status r2) (b_status r1)); simpl; try congruence.
  intros H. destruct (String.leb_total (b_name r1) (b_name r2)); congruence.
Qed.

Lemma order_le_trans (r1 r2 r3 : breakdown_row) :
  order_le r1 r2 = true -> order_le r2 r3 = true -> order_le r1 r3 = true.
Proof.
  unfold order_le.
  destruct (String.compare (b_status r1) (b_status r2)) eqn:E12; try discriminate;
    destruct (String.compare (b_status r2) (b_status r3)) eqn:E23; try discriminate.
  - apply String.compare_eq_iff in E12, E23. rewrite E12, E23, string_compare_refl.
    apply string_leb_trans.
  - apply String.compare_eq_iff in E12. rewrite E12, E23. reflexivity.
  - apply String.compare_eq_iff in E23. rewrite <- E23, E12. reflexivity.
  - rewrite (string_compare_lt_trans _ _ _ E12 E23). reflexivity.
Qed.

Lemma insert_ordered_sorted (r : breakdown_row) (rows : list breakdown_row) :
  Sorted ordered_before rows -> Sorted ordered_before (insert_ordered r rows).
Proof.
  induction rows as [|r' rows IH]; simpl; intros Hs.
  - constructor; constructor.
  - destruct (order_le r r') eqn:E.
    + constructor; [exact Hs | constructor; exact E].
    + inversion Hs as [|? ? Hs' Hhd]; subst.
      constructor; [apply IH; exact Hs'|].
      apply order_le_total in E.
      destruct rows as [|r'' rows]; simpl.
      * constructor. exact E.
      * destruct (order_le r r''); constructor; [exact E|].
        inversion Hhd; subst. assumption.
Qed.

Lemma order_by_sorted (rows : list breakdown_row) :
  Sorted ordered_before (order_by rows).
Proof.
  induction rows as [|r rows IH]; simpl; [constructor|].
  apply insert_ordered_sorted. exact IH.
Qed.

(** X10: the breakdown is in ORDER BY status, name order: each row
    comes no later than every row after it, that is, its status is
    smaller as text, or equal with a name that is smaller or equal. *)
Theorem breakdown_is_ordered (d : db) :
  StronglySorted
    (fun r1 r2 =>
       String.compare (b_status r1) (b_status r2) = Lt \/
       (b_status r1 = b_status r2 /\ String.leb (b_name r1) (b_name r2) = true))
    (client_monthly_revenue_breakdown d).
Proof.
  assert (H : StronglySorted ordered_before (client_monthly_revenue_breakdown d)).
  { apply Sorted_StronglySorted.
    - intros r1 r2 r3. apply order_le_trans.
    - apply order_by_sorted. }
  induction H as [|r rows _ IH Hall]; constructor; [exact IH|].
  eapply Forall_impl; [|exact Hall].
  intros r' Hle. unfold ordered_before, order_le in Hle.
  destruct (String.compare (b_status r) (b_status r')) eqn:E; try discriminate.
  - right. split; [apply String.compare_eq_iff; exact E | exact Hle].
  - left. reflexivity.
Qed.

(** X11: in a database that satisfies the schema, the client ids of the
    breakdown rows are the ids of the clients table, each once: there is
    no row for anything that is not a stored Client, whether or not it
    has Services. *)
Theorem breakdown_rows_are_the_clients (d : db) :
  db_ok d ->
  Permutation (map b_client_id (client_monthly_revenue_breakdown d))
              (map c_id (clients d)) /\
  List.length (client_monthly_revenue_breakdown d) = List.length (clients d).
Proof.
  intros Hok. pose proof (breakdown_perm d (ok_client_ids d Hok)) as Hp.
  split.
  - rewrite (Permutation_map b_client_id Hp). rewrite map_map. simpl. reflexivity.
  - rewrite (Permutation_length Hp). apply length_map.
Qed.

Lemma breakdown_rows_are_the_clients_witness :
  map b_client_id (client_monthly_revenue_breakdown three_clients_db) = [1; 3; 2] /\
  Permutation (map b_client_id (client_monthly_revenue_breakdown three_clients_db))
              (map c_id (clients three_clients_db)).
Proof.
  split; [reflexivity|].
  apply (breakdown_rows_are_the_clients three_clients_db).
  constructor; simpl.
  - repeat constructor; simpl; intuition lia.
  - repeat constructor; simpl; intuition lia.
  - rows_by ltac:(reflexivity).
  - rows_by ltac:(unfold Qle; simpl; lia).
  - rows_by ltac:(simpl; auto).
  - rows_by ltac:(simpl; auto).
Defined.

(** ** Revenue figures *)

Lemma Qsum_nonneg (xs : list Q) : Forall (fun x => (0 <= x)%Q) xs -> (0 <= Qsum xs)%Q.
Proof.
  induction 1 as [|x xs Hx _ IH]; simpl; [apply Qle_refl|]. lra.
Qed.

Lemma client_row_nonneg (ss : list service) (c : client) :
  Forall (fun s => (0 <= s_monthly_cost s)%Q) ss ->
  (0 <= b_monthly_revenue (client_row ss c))%Q.
Proof.
  intros H. rewrite client_row_revenue. apply Qsum_nonneg.
  apply Forall_forall. intros x Hx. apply in_map_iff in Hx.
  destruct Hx as (s & <- & Hs). apply filter_In in Hs.
  rewrite Forall_forall in H. apply H. tauto.
Qed.

Lemma breakdown_nonneg (d : db) :
  db_ok d ->
  Forall (fun r => (0 <= b_monthly_revenue r)%Q) (client_monthly_revenue_breakdown d).
Proof.
  intros Hok. eapply Permutation_Forall.
  - symmetry. apply breakdown_perm. exact (ok_client_ids d Hok).
  - apply Forall_forall. intros r Hr. apply in_map_iff in Hr.
    destruct Hr as (c & <- & _). apply client_row_nonneg. exact (ok_cost d Hok).
Qed.

Lemma status_sum_nonneg (df : list breakdown_row) (st : string) :
  Forall (fun r => (0 <= b_monthly_revenue r)%Q) df -> (0 <= status_sum df st)%Q.
Proof.
  intros H. unfold status_sum. apply Qsum_nonneg.
  apply Forall_forall. intros x Hx. apply in_map_iff in Hx.
  destruct Hx as (r & <- & Hr). apply filter_In in Hr.
  rewrite Forall_forall in H. apply H. tauto.
Qed.

(** X12: in a database that satisfies the schema no revenue figure is
    negative: every row of the breakdown and each of the four dashboard
    totals is at least 0. *)
Theorem revenue_is_never_negative (d : db) :
  db_ok d ->
  Forall (fun r => (0 <= b_monthly_revenue r)%Q) (client_monthly_revenue_breakdown d) /\
  (let '(active_mrr, prospect_mrr, total_potential, inactive_mrr) :=
     totals_for_dashboard d in
   (0 <= active_mrr)%Q /\ (0 <= prospect_mrr)%Q /\
   (0 <= total_potential)%Q /\ (0 <= inactive_mrr)%Q).
Proof.
  intros Hok. pose proof (breakdown_nonneg d Hok) as Hb.
  split; [exact Hb|].
  unfold totals_for_dashboard. cbv zeta.
  pose proof (status_sum_nonneg _ "Active" Hb).
  pose proof (status_sum_nonneg _ "Prospect" Hb).
  pose proof (status_sum_nonneg _ "Inactive" Hb).
  repeat split; try assumption. lra.
Qed.

Lemma revenue_is_never_negative_witness :
  totals_for_dashboard two_clients_db = (100, 75 # 2, 100 + (75 # 2), 0)%Q /\
  Forall (fun r => (0 <= b_monthly_revenue r)%Q)
         (client_monthly_revenue_breakdown two_clients_db).
Proof.
  split; [vm_compute; reflexivity|].
  apply (revenue_is_never_negative two_clients_db).
  exact two_clients_db_ok.
Defined.

(** ** Rows selected by id *)

Lemma same_id_same_row (ss : list service) (s x : service) :
  NoDup (map s_id ss) -> In s ss -> In x ss -> s_id x = s_id s -> x = s.
Proof.
  induction ss as [|y ss IH]; simpl; intros Hnd Hs Hx Heq; [contradiction|].
  inversion Hnd as [|? ? Hn Hd]; subst.
  destruct Hs as [->|Hs], Hx as [->|Hx]; auto.
  - exfalso. apply Hn. rewrite <- Heq. apply in_map. exact Hx.
  - exfalso. apply Hn. rewrite Heq. apply in_map. exact Hs.
Qed.

Lemma delete_service_eq (d : db) (service_id : Z) :
  delete_service service_id d
  = (mkDb (clients d) (filter (fun s => negb (s_id s =? service_id)) (services d))
          (clients_seq d) (services_seq d), None).
Proof.
  unfold delete_service. rewrite exec_sql_eq. reflexivity.
Qed.

Lemma row_statement_accepts (r : edited_row) (d : db) :
  (0 <= e_monthly_cost r)%Q ->
  row_statement r d
  = Ok (mkDb (clients d)
             (map (replaced (fun s => s_id s =? e_id r) (edited_service r)) (services d))
             (clients_seq d) (services_seq d)).
Proof.
  intros Hc. unfold row_statement, update_service.
  change (fun s => mkService (s_id s) (s_client_id s) (strip (e_service_name r))
                     (e_monthly_cost r) (if e_is_active r then 1 else 0)
                     (s_created_at s))
    with (edited_service r).
  rewrite sql_update_accepts; [reflexivity|].
  apply Forall_forall. intros s _ _.
  apply service_checks_accepts; [exact Hc | apply active_flag].
Qed.

(** ** Bulk updates that succeed *)

Lemma Forall2_map_left {A B : Type} (Q : A -> B -> Prop) (h : A -> A)
    (l : list A) (l' : list B) :
  Forall2 Q (map h l) l' -> Forall2 (fun a b => Q (h a) b) l l'.
Proof.
  revert l'; induction l as [|a l IH]; simpl; intros l' H; inversion H; subst;
    constructor; auto.
Qed.

Lemma Forall2_weaken {A B : Type} (P Q : A -> B -> Prop) (l : list A) (l' : list B) :
  (forall a b, P a b -> Q a b) -> Forall2 P l l' -> Forall2 Q l l'.
Proof.
  intros H; induction 1; constructor; auto.
Qed.

(** What a batch may change in a Service: nothing of its identity, and
    nothing at all when no row of the batch carries its id. *)
Lemma run_rows_frame (rows : list edited_row) (d : db) :
  (forall r, In r rows -> (0 <= e_monthly_cost r)%Q) ->
  exists ss,
    run_rows rows d = Ok (mkDb (clients d) ss (clients_seq d) (services_seq d)) /\
    Forall2 (fun s s' =>
               s_id s' = s_id s /\ s_client_id s' = s_client_id s /\
               s_created_at s' = s_created_at s /\
               (~ In (s_id s) (map e_id rows) -> s' = s))
            (services d) ss.
Proof.
  revert d; induction rows as [|r rows IH]; intros d Hcost.
  - exists (services d). simpl. rewrite db_eta. split; [reflexivity|].
    apply Forall2_same. intros s _. repeat split.
  - cbn [run_rows]. rewrite row_statement_accepts by (apply Hcost; left; reflexivity).
    destruct (IH (mkDb (clients d)
                       (map (replaced (fun s => s_id s =? e_id r) (edited_service r))
                            (services d))
                       (clients_seq d) (services_seq d)))
      as (ss & Hrun & HF).
    { intros r' Hr'. apply Hcost. right. exact Hr'. }
    exists ss. split; [exact Hrun|].
    cbn [services] in HF. apply Forall2_map_left in HF.
    eapply Forall2_weaken; [|exact HF].
    intros s s' (H1 & H2 & H3 & H4).
    rewrite (replaced_keeps s_id) in H1, H4 by reflexivity.
    rewrite (replaced_keeps s_client_id) in H2 by reflexivity.
    rewrite (replaced_keeps s_created_at) in H3 by reflexivity.
    repeat split; try assumption.
    intros Hn. rewrite H4.
    + unfold replaced. destruct (s_id s =? e_id r) eqn:E; [|reflexivity].
      apply Z.eqb_eq in E. exfalso. apply Hn. simpl. left. symmetry. exact E.
    + intros Hin. apply Hn. simpl. right. exact Hin.
Qed.

(** X17: a batch in which no cost is negative is always committed:
    [update_services_bulk] returns normally, whatever ids, names and
    flags the rows carry.  It leaves the clients table and both counters
    alone, keeps every Service in its position with its id, client and
    creation time, and does not touch a Service whose id no row
    carries. *)
Theorem update_services_bulk_succeeds_and_keeps_identities
    (edited : list edited_row) (d : db) :
  (forall r, In r edited -> (0 <= e_monthly_cost r)%Q) ->
  exists d',
    update_services_bulk edited d = (d', None) /\
    clients d' = clients d /\
    clients_seq d' = clients_seq d /\ services_seq d' = services_seq d /\
    Forall2 (fun s s' =>
               s_id s' = s_id s /\ s_client_id s' = s_client_id s /\
               s_created_at s' = s_created_at s /\
               (~ In (s_id s) (map e_id edited) -> s' = s))
            (services d) (services d').
Proof.
  intros Hcost. destruct (run_rows_frame edited d Hcost) as (ss & Hrun & HF).
  eexists. rewrite update_services_bulk_eq, Hrun.
  split; [reflexivity|]. simpl. repeat split. exact HF.
Qed.

Lemma update_services_bulk_succeeds_and_keeps_identities_witness :
  exists d',
    update_services_bulk [mkEdited 2 " Legacy " 0 true; mkEdited 9 "" 5 false] acme_db
      = (d', None) /\
    clients d' = [acme] /\
    services d' = [hosting; mkService 2 1 "Legacy" 0 1 "2024-01-03T00:00:00"].
Proof.
  destruct (update_services_bulk_succeeds_and_keeps_identities
              [mkEdited 2 " Legacy " 0 true; mkEdited 9 "" 5 false] acme_db)
    as (d' & E & _).
  - intros r [<-|[<-|[]]]; unfold Qle; simpl; lia.
  - exists d'. split; [exact E|].
    assert (Hd : d' = fst (update_services_bulk
                             [mkEdited 2 " Legacy " 0 true; mkEdited 9 "" 5 false]
                             acme_db)) by (rewrite E; reflexivity).
    rewrite Hd. split; reflexivity.
Defined.

(** ** The services grid *)

Lemma insert_service_row_perm (r : services_df_row) (rows : list services_df_row) :
  Permutation (insert_service_row r rows) (r :: rows).
Proof.
  induction rows as [|r' rows IH]; simpl; [reflexivity|].
  destruct (services_le r r'); [reflexivity|].
  rewrite IH. apply perm_swap.
Qed.

Lemma order_services_perm (rows : list services_df_row) :
  Permutation (order_services rows) rows.
Proof.
  induction rows as [|r rows IH]; simpl; [reflexivity|].
  rewrite insert_service_row_perm, IH. reflexivity.
Qed.

Lemma editable_from_service (manage_id : Z) (d : db) (r : edited_row) :
  In r (editable manage_id d) ->
  exists s, In s (services d) /\ s_client_id s = manage_id /\
            r = editable_row (select_service s).
Proof.
  unfold editable, services_df. intros H.
  apply in_map_iff in H. destruct H as (f & <- & Hf).
  apply (Permutation_in _ (order_services_perm _)) in Hf.
  apply in_map_iff in Hf. destruct Hf as (s & <- & Hs).
  apply filter_In in Hs. destruct Hs as [Hs Hc]. apply Z.eqb_eq in Hc.
  exists s. repeat split; assumption.
Qed.

Lemma run_rows_fixed (rows : list edited_row) (d : db) :
  (forall r, In r rows -> row_statement r d = Ok d) -> run_rows rows d = Ok d.
Proof.
  induction rows as [|r rows IH]; simpl; intros H; [reflexivity|].
  rewrite (H r (or_introl eq_refl)). apply IH.
  intros r' Hr'. apply H. right. exact Hr'.
Qed.

Lemma unedited_row_statement (d : db) (s : service) :
  db_ok d -> trimmed (s_service_name s) -> In s (services d) ->
  row_statement (editable_row (select_service s)) d = Ok d.
Proof.
  intros Hok Htrim Hs.
  pose proof (ok_cost d Hok) as Hcost. pose proof (ok_is_active d Hok) as Hact.
  rewrite Forall_forall in Hcost, Hact.
  rewrite row_statement_accepts by (simpl; apply Hcost; exact Hs).
  f_equal. rewrite <- (db_eta d) at 5. f_equal.
  rewrite <- (map_id (services d)) at 2. apply map_ext_in.
  intros x Hx. unfold replaced. cbn [editable_row select_service e_id f_id].
  destruct (s_id x =? s_id s) eqn:E; [|reflexivity].
  apply Z.eqb_eq in E.
  assert (x = s) by (apply (same_id_same_row (services d) s x (ok_service_ids d Hok));
                     assumption).
  subst x. unfold edited_service. simpl.
  rewrite (trimmed_strip _ Htrim).
  destruct s as [i c n m a t]. simpl in *. f_equal.
  destruct (Hact _ Hs) as [Ha|Ha]; simpl in Ha; subst a; reflexivity.
Qed.

(** X18: in every reachable state, saving the services grid of a client
    as it was loaded, without an edit, changes nothing: every row is
    written back with the values it already has, and the call returns
    normally. *)
Theorem saving_the_unedited_grid_changes_nothing (d : db) (manage_id : Z) :
  reachable d ->
  update_services_bulk (editable manage_id d) d = (d, None).
Proof.
  intros Hr. rewrite update_services_bulk_eq.
  rewrite run_rows_fixed; [reflexivity|].
  intros r Hin. apply editable_from_service in Hin.
  destruct Hin as (s & Hs & _ & ->).
  apply unedited_row_statement; [apply reachable_db_ok; exact Hr | | exact Hs].
  destruct (reachable_names_trimmed d Hr) as [_ Hn].
  rewrite Forall_forall in Hn. apply Hn. exact Hs.
Qed.

Lemma saving_the_unedited_grid_changes_nothing_witness :
  editable 1 acme_db
    = [mkEdited 1 "Hosting" 100 true; mkEdited 2 "Old Plan" 50 false] /\
  update_services_bulk (editable 1 acme_db) acme_db = (acme_db, None).
Proof.
  split; [reflexivity|].
  apply saving_the_unedited_grid_changes_nothing.
  exact acme_db_reachable.
Defined.

Lemma services_le_total (r1 r2 : services_df_row) :
  services_le r1 r2 = false -> services_le r2 r1 = true.
Proof.
  unfold services_le.
  destruct (f_is_active r2 <? f_is_active r1) eqn:E21; [discriminate|].
  destruct (f_is_active r1 <? f_is_active r2) eqn:E12; [reflexivity|].
  intros H. destruct (String.leb_total (f_service_name r1) (f_service_name r2));
    congruence.
Qed.

Lemma services_le_trans (r1 r2 r3 : services_df_row) :
  services_le r1 r2 = true -> services_le r2 r3 = true -> services_le r1 r3 = true.
Proof.
  unfold services_le.
  destruct (f_is_active r2 <? f_is_active r1) eqn:E21;
    destruct (f_is_active r1 <? f_is_active r2) eqn:E12;
    destruct (f_is_active r3 <? f_is_active r2) eqn:E32;
    destruct (f_is_active r2 <? f_is_active r3) eqn:E23;
    destruct (f_is_active r3 <? f_is_active r1) eqn:E31;
    destruct (f_is_active r1 <? f_is_active r3) eqn:E13;
    try reflexivity; try discriminate;
    rewrite ?Z.ltb_lt, ?Z.ltb_ge in *; try lia.
  apply string_leb_trans.
Qed.

Lemma insert_service_row_sorted (r : services_df_row) (rows : list services_df_row) :
  Sorted (fun r1 r2 => services_le r1 r2 = true) rows ->
  Sorted (fun r1 r2 => services_le r1 r2 = true) (insert_service_row r rows).
Proof.
  induction rows as [|r' rows IH]; simpl; intros Hs.
  - constructor; constructor.
  - destruct (services_le r r') eqn:E.
    + constructor; [exact Hs | constructor; exact E].
    + inversion Hs as [|? ? Hs' Hhd]; subst.
      constructor; [apply IH; exact Hs'|].
      apply services_le_total in E.
      destruct rows as [|r'' rows]; simpl.
      * constructor. exact E.
      * destruct (services_le r r''); constructor; [exact E|].
        inversion Hhd; subst. assumption.
Qed.

Lemma order_services_sorted (rows : list services_df_row) :
  Sorted (fun r1 r2 => services_le r1 r2 = true) (order_services rows).
Proof.
  induction rows as [|r rows IH]; simpl; [constructor|].
  apply insert_service_row_sorted. exact IH.
Qed.

(** X19: the services grid of a client holds exactly the Services of
    that client, each once, as rows carrying the stored id, name and
    cost and the flag 1 for a Service stored with [is_active = 1] and 0
    otherwise; so its [is_active] column is 0 or 1 whatever is stored.
    Its rows are ordered with the active ones first and, among rows of
    the same flag, by name. *)
Theorem services_df_lists_the_clients_services (manage_id : Z) (d : db) :
  Permutation
    (services_df manage_id d)
    (map (fun s => mkServicesDf (s_id s) (s_service_name s) (s_monthly_cost s)
                     (if s_is_active s =? 1 then 1 else 0))
         (filter (fun s => s_client_id s =? manage_id) (services d))) /\
  Permutation (map f_id (services_df manage_id d))
              (map s_id (filter (fun s => s_client_id s =? manage_id) (services d))) /\
  Forall (fun r => f_is_active r = 0 \/ f_is_active r = 1) (services_df manage_id d) /\
  StronglySorted
    (fun r1 r2 =>
       f_is_active r2 < f_is_active r1 \/
       (f_is_active r1 = f_is_active r2 /\
        String.leb (f_service_name r1) (f_service_name r2) = true))
    (services_df manage_id d).
Proof.
  unfold services_df. split; [|split; [|split]].
  - apply order_services_perm.
  - rewrite (Permutation_map f_id (order_services_perm _)).
    rewrite map_map. reflexivity.
  - eapply Permutation_Forall; [symmetry; apply order_services_perm|].
    apply Forall_forall. intros r Hr. apply in_map_iff in Hr.
    destruct Hr as (s & <- & _). simpl.
    destruct (s_is_active s =? 1); auto.
  - match goal with |- StronglySorted _ ?l =>
      assert (H : StronglySorted (fun r1 r2 => services_le r1 r2 = true) l)
    end.
    { apply Sorted_StronglySorted.
      - intros r1 r2 r3. apply services_le_trans.
      - apply order_services_sorted. }
    induction H as [|r rows _ IH Hall]; constructor; [exact IH|].
    eapply Forall_impl; [|exact Hall].
    intros r' Hle. unfold services_le in Hle.
    destruct (f_is_active r' <? f_is_active r) eqn:E1;
      [left; apply Z.ltb_lt; exact E1|].
    destruct (f_is_active r <? f_is_active r') eqn:E2; [discriminate|].
    right. apply Z.ltb_ge in E1, E2. split; [lia | exact Hle].
Qed.

(** ** Deleting a client and the breakdown *)

Lemma filter_of_filter {A : Type} (p q : A -> bool) (l : list A) :
  (forall x, In x l -> p x = true -> q x = true) ->
  filter p (filter q l) = filter p l.
Proof.
  induction l as [|a l IH]; simpl; intros H; [reflexivity|].
  assert (IH' : filter p (filter q l) = filter p l).
  { apply IH. intros x Hx. apply H. right. exact Hx. }
  destruct (p a) eqn:Ep.
  - rewrite (H a (or_introl eq_refl) Ep). simpl. rewrite Ep, IH'. reflexivity.
  - destruct (q a); simpl; [rewrite Ep|]; exact IH'.
Qed.

Lemma delete_client_eq (d : db) (cid : Z) :
  delete_client cid d
  = (mkDb (filter (fun c => negb (c_id c =? cid)) (clients d))
          (filter (fun s => negb (existsb (fun c => c_id c =? s_client_id s)
                                    (filter (fun c => c_id c =? cid) (clients d))))
                  (services d))
          (clients_seq d) (services_seq d), None).
Proof.
  unfold delete_client. rewrite exec_sql_eq. reflexivity.
Qed.

(** X20: in a database that satisfies the schema, deleting a Client
    takes its row out of the breakdown and changes no other row: the
    breakdown afterwards holds the former rows with another client id,
    with the same name, status and revenue. *)
Theorem delete_client_drops_its_breakdown_row (d : db) (cid : Z) :
  db_ok d ->
  Permutation (client_monthly_revenue_breakdown (fst (delete_client cid d)))
              (filter (fun r => negb (b_client_id r =? cid))
                      (client_monthly_revenue_breakdown d)).
Proof.
  intros Hok. pose proof (ok_client_ids d Hok) as Hnd.
  rewrite delete_client_eq. cbn [fst].
  rewrite breakdown_perm by (cbn [clients]; apply NoDup_map_filter; exact Hnd).
  rewrite (filter_perm _ _ _ (breakdown_perm d Hnd)).
  cbn [clients services]. rewrite filter_map_swap. cbn [client_row b_client_id].
  match goal with
  | |- Permutation (map ?f ?l) (map ?g ?l) => assert (E : map f l = map g l)
  end.
  { apply map_ext_in. intros c Hc. apply filter_In in Hc. destruct Hc as [_ Hne].
    apply negb_true_iff, Z.eqb_neq in Hne.
    unfold client_row, joined_with. rewrite filter_of_filter; [reflexivity|].
    intros s _ Hs. apply Z.eqb_eq in Hs. apply negb_true_iff.
    destruct (existsb _ _) eqn:Ex; [|reflexivity].
    apply existsb_exists in Ex. destruct Ex as (c0 & Hc0 & Heq).
    apply filter_In in Hc0. destruct Hc0 as [_ Hc0].
    apply Z.eqb_eq in Hc0, Heq. congruence. }
  rewrite E. reflexivity.
Qed.

Lemma delete_client_drops_its_breakdown_row_witness :
  client_monthly_revenue_breakdown (fst (delete_client 1 three_clients_db))
    = [mkBreakdown 3 "Gamma" "Inactive" 20; mkBreakdown 2 "Beta" "Prospect" (75 # 2)] /\
  Permutation (client_monthly_revenue_breakdown (fst (delete_client 1 three_clients_db)))
              (filter (fun r => negb (b_client_id r =? 1))
                      (client_monthly_revenue_breakdown three_clients_db)).
Proof.
  split; [vm_compute; reflexivity|].
  apply (delete_client_drops_its_breakdown_row three_clients_db 1).
  constructor; simpl.
  - repeat constructor; simpl; intuition lia.
  - repeat constructor; simpl; intuition lia.
  - rows_by ltac:(reflexivity).
  - rows_by ltac:(unfold Qle; simpl; lia).
  - rows_by ltac:(simpl; auto).
  - rows_by ltac:(simpl; auto).
Defined.

(** ** Saving a client as it is *)

Lemma reachable_notes_present (d : db) : reachable d -> notes_present d.
Proof.
  induction 1 as [| d [id|] name status notes now _ IH | d id _ IH
                  | d cid sname cost active now _ IH | d edited _ IH | d id _ IH].
  - constructor.
  - apply (exec_sql_keeps notes_present); [|exact IH]. intros d' E.
    apply update_client_rows in E. subst d'. unfold notes_present. simpl.
    apply Forall_replaced; [|exact IH]. intros c. simpl. discriminate.
  - apply (exec_sql_keeps notes_present); [|exact IH]. intros d'. unfold insert_client.
    destruct (client_checks _); [discriminate|].
    intros E; inversion E; subst; clear E. unfold notes_present. simpl.
    apply Forall_snoc; [exact IH|]. simpl. discriminate.
  - apply (exec_sql_keeps notes_present); [|exact IH]. intros d'.
    unfold delete_client_stmt, sql_delete.
    intros E; inversion E; subst; clear E. unfold notes_present. simpl.
    apply Forall_filter. exact IH.
  - apply (exec_sql_keeps notes_present); [|exact IH]. intros d'. unfold insert_service.
    destruct (service_checks _); [discriminate|].
    destruct (existsb _ _); [|discriminate].
    intros E; inversion E; subst; clear E. exact IH.
  - apply (update_services_bulk_keeps notes_present); [|exact IH].
    intros r d0 d1 H0 E. apply row_statement_rows in E. subst d1. exact H0.
  - apply (exec_sql_keeps notes_present); [|exact IH]. intros d'.
    unfold delete_service_stmt, sql_delete.
    intros E; inversion E; subst; clear E. exact IH.
Qed.

Lemma same_key_same_row {A : Type} (key : A -> Z) (l : list A) (a x : A) :
  NoDup (map key l) -> In a l -> In x l -> key x = key a -> x = a.
Proof.
  induction l as [|y l IH]; simpl; intros Hnd Ha Hx Heq; [contradiction|].
  inversion Hnd as [|? ? Hn Hd]; subst.
  destruct Ha as [->|Ha], Hx as [->|Hx]; auto.
  - exfalso. apply Hn. rewrite <- Heq. apply in_map. exact Hx.
  - exfalso. apply Hn. rewrite Heq. apply in_map. exact Ha.
Qed.

(** X21: in every reachable state, saving the client form for a stored
    Client with the values the form loaded for it changes nothing:
    [upsert_client] returns normally and the database is as before. *)
Theorem saving_an_unedited_client_changes_nothing (d : db) (c : client) (now : string) :
  reachable d -> In c (clients d) ->
  upsert_client (Some (c_id c)) (name_default c) (status_default c) (notes_default c)
    now d = (d, None) /\
  fst (client_form_submit (Some (c_id c)) (name_default c) (status_default c)
         (notes_default c) now d) = d.
Proof.
  intros Hr Hc.
  pose proof (reachable_db_ok d Hr) as Hok.
  destruct (reachable_names_trimmed d Hr) as [Htrim _].
  pose proof (reachable_notes_present d Hr) as Hnotes.
  pose proof (ok_status d Hok) as Hst.
  unfold notes_present in Hnotes.
  rewrite Forall_forall in Htrim, Hnotes, Hst.
  assert (Hup : upsert_client (Some (c_id c)) (name_default c) (status_default c)
                  (notes_default c) now d = (d, None)).
  { unfold upsert_client. rewrite exec_sql_eq. unfold update_client.
    rewrite sql_update_accepts.
    - f_equal. rewrite <- (db_eta d) at 5. f_equal.
      rewrite <- (map_id (clients d)) at 2. apply map_ext_in.
      intros x Hx. unfold replaced.
      destruct (c_id x =? c_id c) eqn:E; [|reflexivity].
      apply Z.eqb_eq in E.
      assert (x = c) by (apply (same_key_same_row c_id (clients d) c x
                                  (ok_client_ids d Hok)); assumption).
      subst x. destruct (Htrim c Hc) as [Hn Hno]. specialize (Hnotes c Hc).
      unfold name_default, status_default, notes_default.
      rewrite (trimmed_strip _ Hn).
      destruct c as [i n st [no|] t]; simpl in *; [|congruence].
      rewrite (trimmed_strip _ Hno). reflexivity.
    - apply Forall_forall. intros x _ _. unfold client_checks. simpl.
      unfold status_default. rewrite (Hst c Hc). reflexivity. }
  split; [exact Hup|].
  unfold client_form_submit. destruct (negb _); [reflexivity|].
  rewrite Hup. reflexivity.
Qed.

Lemma saving_an_unedited_client_changes_nothing_witness :
  upsert_client (Some 1) "Acme" "Active" "" "2024-05-01T00:00:00" acme_db
    = (acme_db, None).
Proof.
  apply (proj1 (saving_an_unedited_client_changes_nothing acme_db acme
                  "2024-05-01T00:00:00" acme_db_reachable (or_introl eq_refl))).
Defined.

(** ** Insert, then delete *)

(** X22: deleting the Service that [add_service] has just added
    restores both tables; only the services counter keeps the id that
    was handed out, so the next Service gets a larger one. *)
Theorem delete_service_undoes_add_service
    (d : db) (client_id : Z) (service_name : string) (monthly_cost : Q)
    (is_active : bool) (now : string) :
  (0 <= monthly_cost)%Q -> In client_id (map c_id (clients d)) ->
  exists id,
    services_seq d < id /\
    fst (delete_service id
           (fst (add_service client_id service_name monthly_cost is_active now d)))
    = mkDb (clients d) (services d) (clients_seq d) id.
Proof.
  intros Hc Hin.
  exists (next_rowid (map s_id (services d)) (services_seq d)).
  split; [apply next_rowid_above_seq|].
  rewrite (add_service_eq d client_id service_name monthly_cost is_active now Hc Hin).
  cbn [fst]. rewrite delete_service_eq. cbn [fst clients services clients_seq].
  f_equal. rewrite filter_app. cbn [filter s_id]. rewrite Z.eqb_refl. cbn [negb].
  rewrite app_nil_r. apply filter_keeps_all.
  intros s Hs. apply negb_true_iff, Z.eqb_neq. intros Heq.
  apply (next_rowid_fresh (map s_id (services d)) (services_seq d)).
  rewrite <- Heq. apply in_map. exact Hs.
Qed.

Lemma delete_service_undoes_add_service_witness :
  exists id,
    services_seq acme_db < id /\
    fst (delete_service id
           (fst (add_service 1 "SEO" 500 true "2024-05-01T00:00:00" acme_db)))
    = mkDb [acme] [hosting; old_plan] 1 id.
Proof.
  apply (delete_service_undoes_add_service acme_db 1 "SEO" 500 true
           "2024-05-01T00:00:00").
  - unfold Qle; simpl; lia.
  - simpl. left. reflexivity.
Defined.

(** X23: in a database that satisfies the schema, deleting the Client
    that [upsert_client] has just inserted restores both tables, no
    Service being lost to the cascade; only the clients counter keeps
    the id that was handed out. *)
Theorem delete_client_undoes_insert
    (d : db) (name status notes now : string) :
  db_ok d ->
  status = "Active" \/ status = "Inactive" \/ status = "Prospect" ->
  exists id,
    clients_seq d < id /\
    fst (delete_client id (fst (upsert_client None name status notes now d)))
    = mkDb (clients d) (services d) id (services_seq d).
Proof.
  intros Hok Hst. apply status_in_enum_iff in Hst.
  set (id := next_rowid (map c_id (clients d)) (clients_seq d)).
  exists id. split; [apply next_rowid_above_seq|].
  assert (Hfresh : forall c, In c (clients d) -> (c_id c =? id) = false).
  { intros c Hc. apply Z.eqb_neq. intros Heq.
    apply (next_rowid_fresh (map c_id (clients d)) (clients_seq d)).
    fold id. rewrite <- Heq. apply in_map. exact Hc. }
  assert (Hins : upsert_client None name status notes now d
                 = (mkDb (clients d ++ [mkClient id (strip name) status
                                           (Some (strip notes)) now])
                         (services d) id (services_seq d), None)).
  { unfold upsert_client. rewrite exec_sql_eq. unfold insert_client, client_checks.
    simpl. rewrite Hst. reflexivity. }
  rewrite Hins. cbn [fst]. rewrite delete_client_eq.
  cbn [fst clients services clients_seq services_seq].
  f_equal.
  - rewrite filter_app. cbn [filter c_id]. rewrite Z.eqb_refl. cbn [negb].
    rewrite app_nil_r. apply filter_keeps_all.
    intros c Hc. rewrite (Hfresh c Hc). reflexivity.
  - apply filter_keeps_all. intros s Hs. apply negb_true_iff.
    destruct (existsb _ _) eqn:Ex; [|reflexivity].
    apply existsb_exists in Ex. destruct Ex as (c0 & Hc0 & Heq).
    apply filter_In in Hc0. destruct Hc0 as [_ Hc0]. apply Z.eqb_eq in Hc0, Heq.
    pose proof (ok_foreign_key d Hok) as Hfk. rewrite Forall_forall in Hfk.
    specialize (Hfk s Hs). apply in_map_iff in Hfk. destruct Hfk as (c & Hid & Hcin).
    specialize (Hfresh c Hcin). apply Z.eqb_neq in Hfresh. congruence.
Qed.

Lemma delete_client_undoes_insert_witness :
  exists id,
    clients_seq two_clients_db < id /\
    fst (delete_client id
           (fst (upsert_client None "Gamma" "Inactive" "" "2024-05-01T00:00:00"
                   two_clients_db)))
    = mkDb [acme; beta] [hosting; old_plan; audit] id 3.
Proof.
  apply (delete_client_undoes_insert two_clients_db "Gamma" "Inactive" ""
           "2024-05-01T00:00:00" two_clients_db_ok).
  right; left; reflexivity.
Defined.
